(** * Feedback submission pipeline of [app.py]

    A shallow embedding of the core of the Streamlit feedback application:
    the text normalizer and the keyword classifier of
    [process_feedback_with_ai], the flat-file record store
    ([load_feedbacks] / [save_feedbacks] over [feedbacks.json]), the
    submission branch of [show_feedback_form], and the rating statistics of
    [show_dashboard].

    Modelling conventions.
    - A Python [str] is a [string]; one [ascii] stands for one code point
      below 256, so [len] is [String.length].  Text with code points above
      255 is outside the model.
    - Python integers are [Z].
    - The session state and the file are threaded explicitly. *)

From Stdlib Require Import ZArith List Bool Ascii String Lia QArith.
From Stdlib Require Import DecimalFacts DecimalPos DecimalN DecimalString.
Import ListNotations.

Open Scope string_scope.
Open Scope Z_scope.

(** ** Python string primitives *)

Module PyStr.

(** [len(s)] *)
Definition len (s : string) : Z := Z.of_nat (String.length s).

(** Truth value of a string: only the empty string is falsy. *)
Definition truthy (s : string) : bool :=
  match s with
  | EmptyString => false
  | String _ _ => true
  end.

Definition code (c : ascii) : N := N_of_ascii c.

(** [str.isspace] on one code point below 256: TAB..CR, FS..US, space,
    NEL (0x85) and NBSP (0xA0). *)
Definition isspace (c : ascii) : bool :=
  let n := code c in
  ((9 <=? n) && (n <=? 13) || (28 <=? n) && (n <=? 32)
   || (n =? 133) || (n =? 160))%N.

Fixpoint lstrip (s : string) : string :=
  match s with
  | EmptyString => EmptyString
  | String c s' => if isspace c then lstrip s' else s
  end.

Fixpoint rstrip (s : string) : string :=
  match s with
  | EmptyString => EmptyString
  | String c s' =>
      match rstrip s' with
      | EmptyString => if isspace c then EmptyString else String c EmptyString
      | r => String c r
      end
  end.

(** [s.strip()] *)
Definition strip (s : string) : string := rstrip (lstrip s).

(** [str.lower] on one code point below 256: A..Z and the Latin-1 capitals
    0xC0..0xDE (0xD7, the multiplication sign, excepted) move up by 32. *)
Definition lower_char (c : ascii) : ascii :=
  let n := code c in
  if ((65 <=? n) && (n <=? 90)
      || (192 <=? n) && (n <=? 222) && negb (n =? 215))%N
  then ascii_of_N (n + 32) else c.

(** [s.lower()] *)
Fixpoint lower (s : string) : string :=
  match s with
  | EmptyString => EmptyString
  | String c s' => String (lower_char c) (lower s')
  end.

(** [s.startswith(k)] *)
Fixpoint startswith (k s : string) : bool :=
  match k, s with
  | EmptyString, _ => true
  | String _ _, EmptyString => false
  | String a k', String b s' => Ascii.eqb a b && startswith k' s'
  end.

(** [k in s]: [k] occurs in [s] as a contiguous substring. *)
Fixpoint contains (k s : string) : bool :=
  match s with
  | EmptyString => startswith k EmptyString
  | String _ s' => startswith k s || contains k s'
  end.

(** Does the character [d] occur in [k]? *)
Fixpoint has_char (d : ascii) (k : string) : bool :=
  match k with
  | EmptyString => false
  | String a k' => Ascii.eqb a d || has_char d k'
  end.

End PyStr.

Notation "k 'in_' s" := (PyStr.contains k s) (at level 35, no associativity).

(** ** [process_feedback_with_ai] *)

(** The f-string of line 60. *)
Definition wrapped (feedback_text : string) : string :=
  "Customer feedback indicates: " ++ feedback_text
  ++ ". Additional context would be helpful.".

(** Lines 55-60: the "improved" text. *)
Definition normalize (feedback_text : string) : string :=
  if PyStr.len feedback_text <? 20 then wrapped feedback_text
  else feedback_text.

Definition solution_queue (company_context : string) : string :=
  "Recommendation: Increase staff during peak hours. Consider implementing a queue management system. "
  ++ company_context.
Definition solution_cleaning : string :=
  "Recommendation: Implement more frequent cleaning schedules and conduct regular hygiene inspections.".
Definition solution_service : string :=
  "Recommendation: Provide customer service training for staff and establish clear communication guidelines.".
Definition solution_pricing : string :=
  "Recommendation: Review pricing strategy and consider offering value packages or loyalty programs.".
Definition solution_menu : string :=
  "Recommendation: Gather specific feedback about menu items and consider taste testing with focus groups.".
Definition solution_pacing : string :=
  "Recommendation: Break sessions into shorter segments with interactive elements and regular breaks.".
Definition solution_positive : string :=
  "Positive feedback received! Continue maintaining these high standards and consider what's working well.".
Definition solution_followup (company_context : string) : string :=
  "Recommendation: Follow up with customer for more specific details. "
  ++ (if PyStr.truthy company_context then company_context
      else "Consider implementing regular feedback sessions.").

(** Lines 62-80: the keyword chain over the lower-cased text. *)
Definition classify (feedback_text company_context : string) : string :=
  let lower_feedback := PyStr.lower feedback_text in
  if "slow" in_ lower_feedback || "wait" in_ lower_feedback then
    solution_queue company_context
  else if "dirty" in_ lower_feedback || "clean" in_ lower_feedback then
    solution_cleaning
  else if "rude" in_ lower_feedback || "unfriendly" in_ lower_feedback
          || "staff" in_ lower_feedback then
    solution_service
  else if "price" in_ lower_feedback || "expensive" in_ lower_feedback
          || "cheap" in_ lower_feedback then
    solution_pricing
  else if "food" in_ lower_feedback || "meal" in_ lower_feedback
          || "taste" in_ lower_feedback then
    solution_menu
  else if "long" in_ lower_feedback || "boring" in_ lower_feedback then
    solution_pacing
  else if "good" in_ lower_feedback || "great" in_ lower_feedback
          || "excellent" in_ lower_feedback then
    solution_positive
  else
    solution_followup company_context.

(** The whole function: [category] is a parameter, as in the source. *)
Definition process_feedback_with_ai
    (feedback_text category company_context : string) : string * string :=
  let improved := normalize feedback_text in
  let solution := classify feedback_text company_context in
  (improved, solution).

(** The classifier as the design document words it: an ordered table of
    keyword groups with their recommendations, scanned from the top, the
    first group with a keyword in the lower-cased text deciding. *)
Module RuleTable.

Record rule := {
  keywords : list string;
  recommendation : string -> string
}.

Definition rules : list rule := [
  {| keywords := ["slow"; "wait"]; recommendation := solution_queue |};
  {| keywords := ["dirty"; "clean"];
     recommendation := fun _ => solution_cleaning |};
  {| keywords := ["rude"; "unfriendly"; "staff"];
     recommendation := fun _ => solution_service |};
  {| keywords := ["price"; "expensive"; "cheap"];
     recommendation := fun _ => solution_pricing |};
  {| keywords := ["food"; "meal"; "taste"];
     recommendation := fun _ => solution_menu |};
  {| keywords := ["long"; "boring"];
     recommendation := fun _ => solution_pacing |};
  {| keywords := ["good"; "great"; "excellent"];
     recommendation := fun _ => solution_positive |}
].

Definition matches (lowered : string) (r : rule) : bool :=
  existsb (fun k => k in_ lowered) (keywords r).

Definition first_match (feedback_text company_context : string) : string :=
  match find (matches (PyStr.lower feedback_text)) rules with
  | Some r => recommendation r company_context
  | None => solution_followup company_context
  end.

End RuleTable.

(** ** The [json] module, as far as the store uses it

    [json.dump(obj, f, indent=2)] and [json.load(f)] on documents built
    from [null], booleans, integers, strings, arrays and objects.  Floats
    and escapes of code points above 255 are outside the model: the decoder
    answers [None] for them, as it does where Python raises
    [JSONDecodeError]. *)
Module Json.

#[local] Set Warnings "-register-all".
Inductive value :=
| JNull
| JBool (b : bool)
| JInt (z : Z)
| JStr (s : string)
| JArr (items : list value)
| JObj (members : list (string * value)).

Definition dquote : ascii := "034"%char.
Definition backslash : ascii := "092"%char.
Definition newline : ascii := "010"%char.

(** *** Encoder *)

Definition hex_digit (n : N) : ascii :=
  if (n <? 10)%N then ascii_of_N (48 + n) else ascii_of_N (87 + n).

(** [ESCAPE_DCT] and the [\uXXXX] fallback of [encode_basestring_ascii];
    printable ASCII other than the quote and the backslash is kept. *)
Definition escape_char (c : ascii) : string :=
  let n := PyStr.code c in
  if Ascii.eqb c dquote then String backslash (String dquote "")
  else if Ascii.eqb c backslash then String backslash (String backslash "")
  else if (n =? 10)%N then String backslash "n"
  else if (n =? 13)%N then String backslash "r"
  else if (n =? 9)%N then String backslash "t"
  else if (n =? 12)%N then String backslash "f"
  else if (n =? 8)%N then String backslash "b"
  else if ((32 <=? n) && (n <=? 126))%N then String c ""
  else String backslash
         (String "u" (String "0" (String "0"
           (String (hex_digit (n / 16)) (String (hex_digit (n mod 16)) ""))))).

Fixpoint escape (s : string) : string :=
  match s with
  | EmptyString => EmptyString
  | String c s' => escape_char c ++ escape s'
  end.

Definition encode_str (s : string) : string :=
  String dquote (escape s ++ String dquote "").

Definition encode_int (z : Z) : string :=
  match z with
  | Z0 => "0"
  | Zpos p => DecimalString.NilEmpty.string_of_uint (Pos.to_uint p)
  | Zneg p => String "-" (DecimalString.NilEmpty.string_of_uint (Pos.to_uint p))
  end.

Fixpoint indent_str (level : nat) : string :=
  match level with
  | O => ""
  | S l => "  " ++ indent_str l
  end.

Definition newline_indent (level : nat) : string :=
  String newline (indent_str level).

(** Every item after the first is preceded by the separator. *)
Fixpoint sep_items (sep : string) (items : list string) : string :=
  match items with
  | [] => ""
  | y :: ys => sep ++ y ++ sep_items sep ys
  end.

(** [_iterencode_list] / [_iterencode_dict] with an indent: an empty
    container prints closed, a non-empty one on lines of its own. *)
Definition bracket (opening closing : ascii) (level : nat)
    (items : list string) : string :=
  match items with
  | [] => String opening (String closing "")
  | x :: xs =>
      String opening
        (newline_indent (S level) ++ x
         ++ sep_items (String "," (newline_indent (S level))) xs
         ++ newline_indent level ++ String closing "")
  end.

Fixpoint encode (level : nat) (v : value) : string :=
  match v with
  | JNull => "null"
  | JBool true => "true"
  | JBool false => "false"
  | JInt z => encode_int z
  | JStr s => encode_str s
  | JArr items => bracket "[" "]" level (map (encode (S level)) items)
  | JObj members =>
      bracket "{" "}" level
        (map (fun kv => encode_str (fst kv) ++ ": " ++ encode (S level) (snd kv))
             members)
  end.

(** [json.dumps(obj, indent=2)] *)
Definition dumps (v : value) : string := encode 0 v.

(** *** Decoder *)

Definition is_ws (c : ascii) : bool :=
  let n := PyStr.code c in
  ((n =? 32) || (n =? 9) || (n =? 10) || (n =? 13))%N.

Fixpoint skip_ws (s : string) : string :=
  match s with
  | EmptyString => EmptyString
  | String c s' => if is_ws c then skip_ws s' else s
  end.

Definition hex_value (c : ascii) : option N :=
  let n := PyStr.code c in
  if ((48 <=? n) && (n <=? 57))%N then Some (n - 48)%N
  else if ((97 <=? n) && (n <=? 102))%N then Some (n - 87)%N
  else if ((65 <=? n) && (n <=? 70))%N then Some (n - 55)%N
  else None.

(** [BACKSLASH]: the one-letter escapes. *)
Definition unescape (e : ascii) : option ascii :=
  if Ascii.eqb e dquote then Some dquote
  else if Ascii.eqb e backslash then Some backslash
  else if Ascii.eqb e "/" then Some "/"%char
  else if Ascii.eqb e "b" then Some "008"%char
  else if Ascii.eqb e "f" then Some "012"%char
  else if Ascii.eqb e "n" then Some "010"%char
  else if Ascii.eqb e "r" then Some "013"%char
  else if Ascii.eqb e "t" then Some "009"%char
  else None.

Definition cons_char (c : ascii) (r : option (string * string))
    : option (string * string) :=
  match r with
  | Some (body, rest) => Some (String c body, rest)
  | None => None
  end.

(** [scanstring] in strict mode, entered after the opening quote. *)
Fixpoint scan_string (s : string) : option (string * string) :=
  match s with
  | EmptyString => None
  | String c s1 =>
      if Ascii.eqb c dquote then Some (EmptyString, s1)
      else if Ascii.eqb c backslash then
        match s1 with
        | EmptyString => None
        | String e s2 =>
            if Ascii.eqb e "u" then
              match s2 with
              | String h1 (String h2 (String h3 (String h4 s3))) =>
                  match hex_value h1, hex_value h2, hex_value h3, hex_value h4 with
                  | Some a, Some b, Some c', Some d =>
                      let cp := (((a * 16 + b) * 16 + c') * 16 + d)%N in
                      if (cp <? 256)%N
                      then cons_char (ascii_of_N cp) (scan_string s3)
                      else None
                  | _, _, _, _ => None
                  end
              | _ => None
              end
            else
              match unescape e with
              | Some c' => cons_char c' (scan_string s2)
              | None => None
              end
        end
      else if (PyStr.code c <? 32)%N then None
      else cons_char c (scan_string s1)
  end.

Definition digit_of (c : ascii) : option (Decimal.uint -> Decimal.uint) :=
  match PyStr.code c with
  | 48%N => Some Decimal.D0 | 49%N => Some Decimal.D1
  | 50%N => Some Decimal.D2 | 51%N => Some Decimal.D3
  | 52%N => Some Decimal.D4 | 53%N => Some Decimal.D5
  | 54%N => Some Decimal.D6 | 55%N => Some Decimal.D7
  | 56%N => Some Decimal.D8 | 57%N => Some Decimal.D9
  | _ => None
  end.

(** The longest run of decimal digits at the head of [s]. *)
Fixpoint scan_digits (s : string) : Decimal.uint * string :=
  match s with
  | EmptyString => (Decimal.Nil, EmptyString)
  | String c s' =>
      match digit_of c with
      | Some d => let (u, rest) := scan_digits s' in (d u, rest)
      | None => (Decimal.Nil, s)
      end
  end.

(** A fraction or an exponent after the integer part makes a float. *)
Definition starts_float_tail (s : string) : bool :=
  match s with
  | EmptyString => false
  | String c _ => Ascii.eqb c "." || Ascii.eqb c "e" || Ascii.eqb c "E"
  end.

(** [NUMBER_RE]: an optional sign, then [0] or a run of digits that does
    not start with [0]. *)
Definition scan_number (s : string) : option (Z * string) :=
  let (neg, s1) :=
    match s with
    | String c s' => if Ascii.eqb c "-" then (true, s') else (false, s)
    | EmptyString => (false, s)
    end in
  let sign (n : N) : Z := if neg then - Z.of_N n else Z.of_N n in
  match s1 with
  | EmptyString => None
  | String c s2 =>
      if Ascii.eqb c "0" then
        if starts_float_tail s2 then None else Some (sign 0%N, s2)
      else
        match digit_of c with
        | None => None
        | Some _ =>
            let (u, rest) := scan_digits s1 in
            if starts_float_tail rest then None
            else Some (sign (N.of_uint u), rest)
        end
  end.

(** [Some rest] when [s] is [k] followed by [rest]. *)
Fixpoint strip_prefix (k s : string) : option string :=
  match k, s with
  | EmptyString, _ => Some s
  | String _ _, EmptyString => None
  | String a k', String b s' =>
      if Ascii.eqb a b then strip_prefix k' s' else None
  end.

(** [scan_once], [JSONArray] and [JSONObject]; [fuel] bounds the nesting
    and the number of items, and [loads] supplies enough of it. *)
Fixpoint scan_once (fuel : nat) (s : string) : option (value * string) :=
  match fuel with
  | O => None
  | S fuel' =>
      match s with
      | EmptyString => None
      | String c s1 =>
          if Ascii.eqb c dquote then
            match scan_string s1 with
            | Some (body, rest) => Some (JStr body, rest)
            | None => None
            end
          else if Ascii.eqb c "[" then
            match skip_ws s1 with
            | EmptyString => None
            | String c2 s2 as s1' =>
                if Ascii.eqb c2 "]" then Some (JArr [], s2)
                else
                  match scan_items fuel' s1' with
                  | Some (items, rest) => Some (JArr items, rest)
                  | None => None
                  end
            end
          else if Ascii.eqb c "{" then
            match skip_ws s1 with
            | EmptyString => None
            | String c2 s2 as s1' =>
                if Ascii.eqb c2 "}" then Some (JObj [], s2)
                else
                  match scan_members fuel' s1' with
                  | Some (members, rest) => Some (JObj members, rest)
                  | None => None
                  end
            end
          else
            match strip_prefix "null" s with
            | Some rest => Some (JNull, rest)
            | None =>
            match strip_prefix "true" s with
            | Some rest => Some (JBool true, rest)
            | None =>
            match strip_prefix "false" s with
            | Some rest => Some (JBool false, rest)
            | None =>
            match scan_number s with
            | Some (z, rest) => Some (JInt z, rest)
            | None => None
            end end end end
      end
  end

(** The array loop, entered at the first character of an item. *)
with scan_items (fuel : nat) (s : string) : option (list value * string) :=
  match fuel with
  | O => None
  | S fuel' =>
      match scan_once fuel' s with
      | None => None
      | Some (v, s1) =>
          match skip_ws s1 with
          | EmptyString => None
          | String c s2 =>
              if Ascii.eqb c "]" then Some ([v], s2)
              else if Ascii.eqb c "," then
                match scan_items fuel' (skip_ws s2) with
                | Some (vs, rest) => Some (v :: vs, rest)
                | None => None
                end
              else None
          end
      end
  end

(** The object loop, entered at the opening quote of a key. *)
with scan_members (fuel : nat) (s : string)
    : option (list (string * value) * string) :=
  match fuel with
  | O => None
  | S fuel' =>
      match s with
      | EmptyString => None
      | String q s0 =>
          if negb (Ascii.eqb q dquote) then None
          else
            match scan_string s0 with
            | None => None
            | Some (key, s1) =>
                match skip_ws s1 with
                | EmptyString => None
                | String colon s2 =>
                    if negb (Ascii.eqb colon ":") then None
                    else
                      match scan_once fuel' (skip_ws s2) with
                      | None => None
                      | Some (v, s3) =>
                          match skip_ws s3 with
                          | EmptyString => None
                          | String c s4 =>
                              if Ascii.eqb c "}" then Some ([(key, v)], s4)
                              else if Ascii.eqb c "," then
                                match scan_members fuel' (skip_ws s4) with
                                | Some (ms, rest) => Some ((key, v) :: ms, rest)
                                | None => None
                                end
                              else None
                          end
                      end
                end
            end
      end
  end.

(** [json.loads]: one value between optional white space, nothing after. *)
Definition loads (s : string) : option value :=
  match scan_once (S (String.length s)) (skip_ws s) with
  | Some (v, rest) =>
      match skip_ws rest with
      | EmptyString => Some v
      | String _ _ => None
      end
  | None => None
  end.

(** The Python [dict] built from the members read: a key read again keeps
    its first position and takes the later value. *)
Fixpoint dict_set (k : string) (v : value) (d : list (string * value))
    : list (string * value) :=
  match d with
  | [] => [(k, v)]
  | (k', v') :: d' =>
      if String.eqb k k' then (k, v) :: d' else (k', v') :: dict_set k v d'
  end.

Definition dict_of_members (ms : list (string * value)) : list (string * value) :=
  fold_left (fun d kv => dict_set (fst kv) (snd kv) d) ms [].

(** *** Notions used to reason about the decoder *)

(** Fuel that lets [scan_once] read back the encoding of [v]. *)
Fixpoint size (v : value) : nat :=
  match v with
  | JArr items => S (list_sum (map (fun x => S (size x)) items))
  | JObj members => S (list_sum (map (fun kv => S (size (snd kv))) members))
  | _ => 1%nat
  end.

(** The characters an encoded value can start with. *)
Definition value_start (c : ascii) : bool :=
  Ascii.eqb c dquote || Ascii.eqb c "[" || Ascii.eqb c "{"
  || Ascii.eqb c "n" || Ascii.eqb c "t" || Ascii.eqb c "f"
  || Ascii.eqb c "-"
  || match digit_of c with Some _ => true | None => false end.

Definition number_start (c : ascii) : bool :=
  Ascii.eqb c "-"
  || match digit_of c with Some _ => true | None => false end.

(** What may follow a number without being read as part of it. *)
Definition number_end (s : string) : bool :=
  match s with
  | EmptyString => true
  | String c _ =>
      negb (starts_float_tail s)
      && match digit_of c with Some _ => false | None => true end
  end.

(** [scan_once] reads the encoding of [v] back, whatever follows it. *)
Definition decodes (v : value) : Prop :=
  forall lvl rest fuel,
    (size v <= fuel)%nat -> number_end rest = true ->
    scan_once fuel (encode lvl v ++ rest) = Some (v, rest).

Definition closing (lvl : nat) (cl : ascii) (rest : string) : string :=
  newline_indent lvl ++ String cl rest.

(** What follows the first item of an array: the other items, each after
    its separator, and the closing bracket. *)
Definition array_tail (lvl : nat) (xs : list value) (rest : string) : string :=
  sep_items (String "," (newline_indent (S lvl))) (map (encode (S lvl)) xs)
  ++ closing lvl "]" rest.

Definition member_text (lvl : nat) (kv : string * value) : string :=
  encode_str (fst kv) ++ ": " ++ encode (S lvl) (snd kv).

Definition object_tail (lvl : nat) (ms : list (string * value))
    (rest : string) : string :=
  sep_items (String "," (newline_indent (S lvl))) (map (member_text lvl) ms)
  ++ closing lvl "}" rest.

(** Induction over values that reaches into arrays and objects. *)
Definition value_induction (P : value -> Prop)
    (Hnull : P JNull) (Hbool : forall b, P (JBool b))
    (Hint : forall z, P (JInt z)) (Hstr : forall s, P (JStr s))
    (Harr : forall items, Forall P items -> P (JArr items))
    (Hobj : forall ms, Forall (fun kv => P (snd kv)) ms -> P (JObj ms))
    : forall v, P v :=
  fix go (v : value) : P v :=
    match v with
    | JNull => Hnull
    | JBool b => Hbool b
    | JInt z => Hint z
    | JStr s => Hstr s
    | JArr items =>
        Harr items
          ((fix all (l : list value) : Forall P l :=
              match l with
              | [] => Forall_nil P
              | x :: l' => Forall_cons x (go x) (all l')
              end) items)
    | JObj ms =>
        Hobj ms
          ((fix all (l : list (string * value))
              : Forall (fun kv => P (snd kv)) l :=
              match l with
              | [] => Forall_nil _
              | (k, x) :: l' =>
                  Forall_cons (P := fun kv => P (snd kv)) (k, x) (go x) (all l')
              end) ms)
    end.

End Json.

(** ** Data model *)

(** One entry of [st.session_state.feedbacks]: the dictionary built at
    lines 245-254, its keys in that order. *)
Record feedback := {
  fb_id : Z;
  fb_company : string;
  fb_category : string;
  fb_rating : Z;
  fb_original : string;
  fb_improved : string;
  fb_solution : string;
  fb_timestamp : string
}.

(** [st.session_state.company_info] once set up (lines 171-179). *)
Record company_profile := {
  cp_name : string;
  cp_type : string;
  cp_description : string;
  cp_focus_areas : list string;
  cp_categories : list string;
  cp_enable_rating : bool;
  cp_created_at : string
}.

(** The session state the pipeline reads and writes, and the content of
    [feedbacks.json] ([None] while the file does not exist). *)
Record state := {
  feedbacks : list feedback;
  company_info : option company_profile;
  feedback_file : option string
}.

(** ** Record store *)

Definition feedback_to_json (f : feedback) : Json.value :=
  Json.JObj [
    ("id", Json.JInt (fb_id f));
    ("company", Json.JStr (fb_company f));
    ("category", Json.JStr (fb_category f));
    ("rating", Json.JInt (fb_rating f));
    ("original", Json.JStr (fb_original f));
    ("improved", Json.JStr (fb_improved f));
    ("solution", Json.JStr (fb_solution f));
    ("timestamp", Json.JStr (fb_timestamp f))
  ].

(** The dictionaries the model covers: the eight keys, in the order the
    pipeline writes them, integer [id] and [rating], the rest strings. *)
Definition feedback_of_json (v : Json.value) : option feedback :=
  match v with
  | Json.JObj ms =>
      match Json.dict_of_members ms with
      | [(k1, Json.JInt i); (k2, Json.JStr c); (k3, Json.JStr g);
         (k4, Json.JInt r); (k5, Json.JStr o); (k6, Json.JStr m);
         (k7, Json.JStr s); (k8, Json.JStr t)] =>
          if String.eqb k1 "id" && String.eqb k2 "company"
             && String.eqb k3 "category" && String.eqb k4 "rating"
             && String.eqb k5 "original" && String.eqb k6 "improved"
             && String.eqb k7 "solution" && String.eqb k8 "timestamp"
          then Some {| fb_id := i; fb_company := c; fb_category := g;
                       fb_rating := r; fb_original := o; fb_improved := m;
                       fb_solution := s; fb_timestamp := t |}
          else None
      | _ => None
      end
  | _ => None
  end.

Fixpoint feedbacks_of_json (items : list Json.value) : option (list feedback) :=
  match items with
  | [] => Some []
  | v :: vs =>
      match feedback_of_json v, feedbacks_of_json vs with
      | Some f, Some fs => Some (f :: fs)
      | _, _ => None
      end
  end.

(** The text [json.dump(feedbacks, f, indent=2)] writes. *)
Definition document (fbs : list feedback) : string :=
  Json.dumps (Json.JArr (map feedback_to_json fbs)).

(** [load_feedbacks] (lines 34-38).  [None] stands for a run that does not
    yield a list of feedback records: [json.load] raises, or the document
    is not of the shape above.  The second case is a limit of the model,
    not an exception of the code: a file edited by hand whose records
    carry their keys in another order, other or fewer keys, a float, or a
    character above code point 255 is read by [json.load] and is not
    covered here; every document the pipeline itself writes is. *)
Definition load_feedbacks (file : option string) : option (list feedback) :=
  match file with
  | None => Some []
  | Some text =>
      match Json.loads text with
      | Some (Json.JArr items) => feedbacks_of_json items
      | _ => None
      end
  end.

(** What the operating system does with the write: it succeeds, [open]
    fails and leaves the file alone, or the write stops after [written]
    characters of a file that [open] has already truncated. *)
Inductive io_outcome :=
| IoOk
| IoOpenError
| IoWriteError (written : nat).

Inductive completion := Returned | RaisedOSError.

(** [save_feedbacks] (lines 40-42). *)
Definition save_feedbacks (io : io_outcome) (fbs : list feedback)
    (file : option string) : option string * completion :=
  match io with
  | IoOk => (Some (document fbs), Returned)
  | IoOpenError => (file, RaisedOSError)
  | IoWriteError written =>
      (Some (String.substring 0 written (document fbs)), RaisedOSError)
  end.

(** Lines 44-46, run at the start of every script run. *)
Definition startup (st : state) : option state :=
  match feedbacks st with
  | [] =>
      match load_feedbacks (feedback_file st) with
      | Some fbs => Some {| feedbacks := fbs;
                            company_info := company_info st;
                            feedback_file := feedback_file st |}
      | None => None
      end
  | _ :: _ => Some st
  end.

(** ** Submission: [show_feedback_form] with the form submitted *)

(** The widget values of one submission.  [slider] is what the rating
    slider holds; it is read only when ratings are enabled. *)
Record form_input := {
  category : string;
  slider : Z;
  feedback_text : string
}.


Inductive form_result :=
| Submitted (entry : feedback)      (* st.success *)
| ValidationError                   (* st.error *)
| SaveRaised (entry : feedback).    (* the exception of save_feedbacks *)

Definition default_categories : list string :=
  ["General"; "Service"; "Quality"; "Environment"].

Definition company_name_of (ci : option company_profile) : string :=
  match ci with
  | None => "Our Company"
  | Some p => cp_name p
  end.

Definition categories_of (ci : option company_profile) : list string :=
  match ci with
  | None => default_categories
  | Some p => cp_categories p
  end.

Definition enable_rating_of (ci : option company_profile) : bool :=
  match ci with
  | None => true
  | Some p => cp_enable_rating p
  end.

(** Lines 234-236. *)
Definition company_context_of (ci : option company_profile) : string :=
  match ci with
  | None => ""
  | Some p => "Company context: " ++ cp_description p
  end.

(** Lines 217-220. *)
Definition rating_of (ci : option company_profile) (inp : form_input) : Z :=
  if enable_rating_of ci then slider inp else 0.

(** Lines 245-254; [now] is the formatted clock reading. *)
Definition feedback_entry (st : state) (inp : form_input) (now : string)
    : feedback :=
  let ci := company_info st in
  let '(improved, solution) :=
    process_feedback_with_ai (feedback_text inp) (category inp)
      (company_context_of ci) in
  {| fb_id := Z.of_nat (List.length (feedbacks st)) + 1;
     fb_company := company_name_of ci;
     fb_category := category inp;
     fb_rating := rating_of ci inp;
     fb_original := feedback_text inp;
     fb_improved := improved;
     fb_solution := solution;
     fb_timestamp := now |}.

(** Lines 230-262. *)
Definition show_feedback_form (inp : form_input) (now : string)
    (io : io_outcome) (st : state) : state * form_result :=
  if PyStr.truthy (PyStr.strip (feedback_text inp)) then
    let entry := feedback_entry st inp now in
    (* st.session_state.feedbacks.insert(0, feedback_entry) *)
    let fbs := entry :: feedbacks st in
    (* save_feedbacks(st.session_state.feedbacks) *)
    let '(file, done) := save_feedbacks io fbs (feedback_file st) in
    let st' := {| feedbacks := fbs;
                  company_info := company_info st;
                  feedback_file := file |} in
    match done with
    | Returned => (st', Submitted entry)
    | RaisedOSError => (st', SaveRaised entry)
    end
  else
    (st, ValidationError).

(** One script run that submits the form: start-up, then the form. *)
Definition run_submit (inp : form_input) (now : string) (io : io_outcome)
    (st : state) : option (state * form_result) :=
  match startup st with
  | Some st1 => Some (show_feedback_form inp now io st1)
  | None => None
  end.

(** A sequence of submissions whose writes all succeed. *)
Fixpoint run_submits (subs : list (form_input * string)) (st : state)
    : option state :=
  match subs with
  | [] => Some st
  | (inp, now) :: rest =>
      match run_submit inp now IoOk st with
      | Some (st', Submitted _) => run_submits rest st'
      | _ => None
      end
  end.

(** ** Dashboard statistics (lines 317-322) *)

(** [sum(...)]: a left fold from 0. *)
Definition py_sum (l : list Z) : Z := fold_left Z.add l 0.

(** The integer nearest to [n / d], the even one of two equally near;
    [0 < d]. *)
Definition round_half_even (n d : Z) : Z :=
  let q := n / d in
  let r := n mod d in
  if 2 * r <? d then q
  else if d <? 2 * r then q + 1
  else if Z.even q then q else q + 1.

(** [floor (log2 (n / d))] for positive [n] and [d]. *)
Definition ratio_log2 (n d : Z) : Z :=
  let k := Z.log2 n - Z.log2 d in
  if d * 2 ^ Z.max 0 k <=? n * 2 ^ Z.max 0 (- k) then k else k - 1.

(** The double nearest to [n / d] for positive [n] and [d], as the
    rational it is: 53 significant bits, exponents down to the subnormal
    ones, ties to the even significand; [None] when that double would be
    [2 ^ 1024] or more. *)
Definition double_of_ratio (n d : Z) : option Q :=
  let e := ratio_log2 n d in
  let x := Z.max (e - 52) (- 1074) in
  if 0 <=? x then
    let m := round_half_even n (d * 2 ^ x) in
    if 2 ^ 1024 <=? m * 2 ^ x then None else Some (inject_Z (m * 2 ^ x))
  else
    Some (round_half_even (n * 2 ^ (- x)) d # Z.to_pos (2 ^ (- x))).

(** What [a / b] on integers comes to: a float, or one of its two
    exceptions. *)
Inductive division :=
| Quotient (q : Q)
| ZeroDivisionError
| OverflowError.

(** [a / b] on integers: the correctly rounded double, or
    [OverflowError] where the quotient is too large for one.  The sign of
    a zero is not kept. *)
Definition true_div (a b : Z) : division :=
  if b =? 0 then ZeroDivisionError
  else if a =? 0 then Quotient (inject_Z 0)
  else
    match double_of_ratio (Z.abs a) (Z.abs b) with
    | None => OverflowError
    | Some q => Quotient (if xorb (a <? 0) (b <? 0) then (- q)%Q else q)
    end.

(** [... for f in feedbacks if f['rating'] > 0] *)
Definition rated (fbs : list feedback) : list feedback :=
  filter (fun f => fb_rating f >? 0) fbs.

Definition rating_total (fbs : list feedback) : Z :=
  py_sum (map fb_rating (rated fbs)).

Definition rating_divisor (fbs : list feedback) : Z :=
  Z.max 1 (py_sum (map (fun _ => 1) (rated fbs))).

Definition avg_rating (fbs : list feedback) : division :=
  let total_feedbacks := Z.of_nat (List.length fbs) in
  if total_feedbacks >? 0
  then true_div (rating_total fbs) (rating_divisor fbs)
  else Quotient (inject_Z 0).

(** ** Properties under study *)

(** Every keyword of the rule table. *)
Definition all_keywords : list string :=
  flat_map RuleTable.keywords RuleTable.rules.

(** The normalizer rule read on the trimmed length of the raw text. *)
Definition trimmed_length_rule (t : string) : Prop :=
  PyStr.strip t <> "" ->
  (normalize t = t <-> 20 <= PyStr.len (PyStr.strip t))
  /\ (PyStr.len (PyStr.strip t) < 20 -> normalize t = wrapped t).

(** A failed save that leaves the session as it was. *)
Definition failed_save_leaves_no_trace (inp : form_input) (now : string)
    (io : io_outcome) (st : state) : Prop :=
  PyStr.strip (feedback_text inp) <> "" ->
  io <> IoOk ->
  let '(st', res) := show_feedback_form inp now io st in
  (exists entry, res = SaveRaised entry)
  /\ feedbacks st' = feedbacks st.

Definition rating_in_range (f : feedback) : Prop := 0 <= fb_rating f <= 5.

(** [save_feedbacks(load_feedbacks())] on the file alone. *)
Definition resave (file : option string) : option (option string) :=
  match load_feedbacks file with
  | Some fbs => Some (fst (save_feedbacks IoOk fbs file))
  | None => None
  end.

(** The records that carry a rating other than 0. *)
Definition without_unrated (fbs : list feedback) : list feedback :=
  filter (fun f => negb (fb_rating f =? 0)) fbs.

(** The average comes out as a number. *)
Definition average_defined (fbs : list feedback) : Prop :=
  exists q, avg_rating fbs = Quotient q.

(** A record as a hand-edited file can hold it: its rating has 401
    digits. *)
Definition overrated_record : feedback :=
  {| fb_id := 1; fb_company := "Our Company"; fb_category := "General";
     fb_rating := 10 ^ 400; fb_original := "ok"; fb_improved := "ok, really";
     fb_solution := "none"; fb_timestamp := "2024-03-01 12:00:00" |}.

(** A text the form accepts. *)
Definition accepted (inp : form_input) : Prop :=
  PyStr.truthy (PyStr.strip (feedback_text inp)) = true.

(** Sample inputs. *)
Definition fresh_state : state :=
  {| feedbacks := []; company_info := None; feedback_file := None |}.

Definition sample_input (text : string) : form_input :=
  {| category := "General"; slider := 3; feedback_text := text |}.

Definition diner : company_profile :=
  {| cp_name := "Sunset Restaurant";
     cp_type := "Restaurant";
     cp_description := "A family diner";
     cp_focus_areas := ["Customer Service"; "Product Quality"];
     cp_categories := ["General"; "Service"; "Quality"; "Environment"];
     cp_enable_rating := false;
     cp_created_at := "2024-03-01 09:00:00" |}.

Definition diner_state : state :=
  {| feedbacks := []; company_info := Some diner; feedback_file := None |}.

(** A file written by hand on one line, and the record it holds. *)
Definition hand_written_file : string :=
  "[ {" ++ Json.encode_str "id" ++ ":1, "
  ++ Json.encode_str "company" ++ ":" ++ Json.encode_str "Our Company" ++ ", "
  ++ Json.encode_str "category" ++ ":" ++ Json.encode_str "General" ++ ", "
  ++ Json.encode_str "rating" ++ " : 3, "
  ++ Json.encode_str "original" ++ ":" ++ Json.encode_str "ok" ++ ", "
  ++ Json.encode_str "improved" ++ ":" ++ Json.encode_str "ok, really" ++ ", "
  ++ Json.encode_str "solution" ++ ":" ++ Json.encode_str "none" ++ ", "
  ++ Json.encode_str "timestamp" ++ ":" ++ Json.encode_str "2024-03-01 12:00:00"
  ++ "} ]".

Definition hand_written_record : feedback :=
  {| fb_id := 1; fb_company := "Our Company"; fb_category := "General";
     fb_rating := 3; fb_original := "ok"; fb_improved := "ok, really";
     fb_solution := "none"; fb_timestamp := "2024-03-01 12:00:00" |}.

(** ** Company setup: [show_setup] with the form submitted *)

(** [s.split(sep)] for a separator of one character. *)
Fixpoint split_on (sep : ascii) (s : string) : list string :=
  match s with
  | EmptyString => [EmptyString]
  | String c s' =>
      if Ascii.eqb c sep then EmptyString :: split_on sep s'
      else
        match split_on sep s' with
        | piece :: pieces => String c piece :: pieces
        | [] => [String c EmptyString]
        end
  end.

(** [sep.join(pieces)] *)
Fixpoint join_with (sep : ascii) (pieces : list string) : string :=
  match pieces with
  | [] => EmptyString
  | [piece] => piece
  | piece :: rest => piece ++ String sep (join_with sep rest)
  end.

(** The number of occurrences of a character. *)
Fixpoint count_char (d : ascii) (s : string) : nat :=
  match s with
  | EmptyString => 0%nat
  | String c s' => ((if Ascii.eqb c d then 1 else 0) + count_char d s')%nat
  end.

(** The widget values of the set-up form (lines 138-165). *)
Record setup_form := {
  company_name : string;
  company_type : string;
  company_description : string;
  focus_areas : list string;
  custom_categories : string;
  enable_rating : bool
}.

Inductive setup_result :=
| SetupStored       (* st.success *)
| SetupRejected.    (* st.error *)

(** Lines 171-179. *)
Definition company_info_of (f : setup_form) (now : string) : company_profile :=
  {| cp_name := company_name f;
     cp_type := company_type f;
     cp_description := company_description f;
     cp_focus_areas := focus_areas f;
     cp_categories := map PyStr.strip (split_on "," (custom_categories f));
     cp_enable_rating := enable_rating f;
     cp_created_at := now |}.

(** Lines 169-195, as far as the session is concerned: what is drawn after
    the profile is stored does not change it. *)
Definition company_setup (f : setup_form) (now : string) (st : state)
    : state * setup_result :=
  if PyStr.truthy (company_name f) && PyStr.truthy (company_description f)
  then ({| feedbacks := feedbacks st;
           company_info := Some (company_info_of f now);
           feedback_file := feedback_file st |},
        SetupStored)
  else (st, SetupRejected).

(** ** Runs of the feedback form *)

(** The form submitted time after time, whatever each run ends in. *)
Fixpoint run_forms (subs : list (form_input * string * io_outcome))
    (st : state) : state :=
  match subs with
  | [] => st
  | (inp, now, io) :: rest =>
      run_forms rest (fst (show_feedback_form inp now io st))
  end.

(** [n; n-1; ...; 1] *)
Fixpoint countdown (n : nat) : list Z :=
  match n with
  | O => []
  | S m => Z.of_nat (S m) :: countdown m
  end.

(** No white-space character in [k]. *)
Fixpoint no_space (k : string) : bool :=
  match k with
  | EmptyString => true
  | String c k' => negb (PyStr.isspace c) && no_space k'
  end.

(** ** Dashboard: the other figures (lines 318-341) *)

Definition total_feedbacks (fbs : list feedback) : Z :=
  Z.of_nat (List.length fbs).

(** Line 327, the figure labelled "Recent (24h)". *)
Definition recent_24h (fbs : list feedback) : Z :=
  py_sum (map (fun _ => 1) fbs).

(** Line 326: the average is printed when it is above 0, "N/A" otherwise. *)
Definition average_printed (fbs : list feedback) : bool :=
  match avg_rating fbs with
  | Quotient q => negb (Qle_bool q 0)
  | _ => false
  end.

(** Lines 337-339. *)
Definition filtered_feedbacks (filter_category : string)
    (fbs : list feedback) : list feedback :=
  if negb (String.eqb filter_category "All")
  then filter (fun f => String.eqb (fb_category f) filter_category) fbs
  else fbs.

(** ** Pages and navigation *)

(** The session state of the whole application: the part the pipeline
    uses, the current page, and the [logged_in] key, absent until a login
    or a logout sets it. *)
Record session := {
  app : state;
  page : string;
  logged_in : option bool
}.

(** Lines 22-29 on a new session; [file] is what [feedbacks.json] holds. *)
Definition initial_session (file : option string) : session :=
  {| app := {| feedbacks := []; company_info := None; feedback_file := file |};
     page := "home";
     logged_in := None |}.

(** [st.session_state.get('logged_in', False)] *)
Definition is_logged_in (s : session) : bool :=
  match logged_in s with
  | Some b => b
  | None => false
  end.

Definition with_app (a : state) (s : session) : session :=
  {| app := a; page := page s; logged_in := logged_in s |}.

Definition with_logged_in (b : bool) (s : session) : session :=
  {| app := app s; page := page s; logged_in := Some b |}.

(** What the user did to start a script run: the button pressed or the
    form submitted, with the values of its widgets. *)
Inductive event :=
| SidebarHome | SidebarSetup | SidebarFeedback | SidebarDashboard
| HomeCompanySetup | HomeStaffDashboard | HomeFeedbackForm
| SetupBack
| SetupSubmit (f : setup_form) (now : string)
| FeedbackSubmit (inp : form_input) (now : string) (io : io_outcome)
| FeedbackBack | FeedbackAnother
| LoginBack
| LoginSubmit (username password : string)
| DashboardHome | DashboardLogout | DashboardGoToFeedback
| DashboardFilter (filter_category : string).

(** The page function that drew the page. *)
Inductive screen :=
| HomeScreen | SetupScreen | FeedbackScreen | LoginScreen | DashboardScreen
| NoScreen.

(** How a script run ends: [st.rerun()] stops it and asks for another run,
    or the page is drawn, or an exception stops the run. *)
Inductive run_result :=
| Rerun (s : session)
| Shown (s : session) (v : screen)
| Crashed (s : session).

(** [navigate_to] (lines 99-101). *)
Definition navigate_to (p : string) (s : session) : run_result :=
  Rerun {| app := app s; page := p; logged_in := logged_in s |}.

(** [show_home] (lines 104-126). *)
Definition show_home (ev : option event) (s : session) : run_result :=
  match ev with
  | Some HomeCompanySetup => navigate_to "setup" s
  | Some HomeStaffDashboard => navigate_to "login" s
  | Some HomeFeedbackForm => navigate_to "feedback" s
  | _ => Shown s HomeScreen
  end.

(** [show_setup] (lines 129-195).  An accepted form stores the profile
    and then asks for a button inside the form (line 192), which the
    library refuses with an exception. *)
Definition show_setup (ev : option event) (s : session) : run_result :=
  match ev with
  | Some SetupBack => navigate_to "home" s
  | Some (SetupSubmit f now) =>
      let '(a, res) := company_setup f now (app s) in
      match res with
      | SetupStored => Crashed (with_app a s)
      | SetupRejected => Shown (with_app a s) SetupScreen
      end
  | _ => Shown s SetupScreen
  end.

(** [show_feedback_form] as a page (lines 198-271). *)
Definition feedback_page (ev : option event) (s : session) : run_result :=
  match ev with
  | Some (FeedbackSubmit inp now io) =>
      let '(a, res) := show_feedback_form inp now io (app s) in
      match res with
      | SaveRaised _ => Crashed (with_app a s)
      | _ => Shown (with_app a s) FeedbackScreen
      end
  | Some FeedbackBack => navigate_to "home" s
  | Some FeedbackAnother => Rerun s
  | _ => Shown s FeedbackScreen
  end.

(** [show_login] (lines 274-296). *)
Definition show_login (ev : option event) (s : session) : run_result :=
  match ev with
  | Some LoginBack => navigate_to "home" s
  | Some (LoginSubmit username password) =>
      if String.eqb username "admin" && String.eqb password "admin123"
      then navigate_to "dashboard" (with_logged_in true s)
      else Shown s LoginScreen
  | _ => Shown s LoginScreen
  end.

(** Two of the keys given to the widgets of one run are the same. *)
Fixpoint has_duplicate (keys : list Z) : bool :=
  match keys with
  | [] => false
  | k :: rest => existsb (Z.eqb k) rest || has_duplicate rest
  end.

(** The value of the category filter in a run: what the user has just
    chosen, the first option otherwise. *)
Definition filter_category_of (ev : option event) : string :=
  match ev with
  | Some (DashboardFilter c) => c
  | _ => "All"
  end.

(** [show_dashboard] (lines 299-371).  After the two buttons come the
    figures, whose division can raise (line 320), and the records shown,
    each with a text area keyed by its id (line 361): the library refuses
    a key used twice with an exception. *)
Definition show_dashboard (ev : option event) (s : session) : run_result :=
  if negb (is_logged_in s) then navigate_to "login" s
  else
    match ev with
    | Some DashboardHome => navigate_to "home" s
    | Some DashboardLogout => navigate_to "home" (with_logged_in false s)
    | _ =>
        match avg_rating (feedbacks (app s)) with
        | Quotient _ =>
            match feedbacks (app s) with
            | [] =>
                match ev with
                | Some DashboardGoToFeedback => navigate_to "feedback" s
                | _ => Shown s DashboardScreen
                end
            | _ :: _ =>
                let shown :=
                  filtered_feedbacks (filter_category_of ev)
                    (feedbacks (app s)) in
                if has_duplicate (map fb_id shown) then Crashed s
                else Shown s DashboardScreen
            end
        | _ => Crashed s
        end
    end.

(** [main] (lines 374-415): the sidebar, then the page. *)
Definition main (ev : option event) (s : session) : run_result :=
  match ev with
  | Some SidebarHome => navigate_to "home" s
  | Some SidebarSetup => navigate_to "setup" s
  | Some SidebarFeedback => navigate_to "feedback" s
  | Some SidebarDashboard => navigate_to "login" s
  | _ =>
      if String.eqb (page s) "home" then show_home ev s
      else if String.eqb (page s) "setup" then show_setup ev s
      else if String.eqb (page s) "feedback" then feedback_page ev s
      else if String.eqb (page s) "login" then show_login ev s
      else if String.eqb (page s) "dashboard" then show_dashboard ev s
      else Shown s NoScreen
  end.

(** One run of the script: the start-up lines, then [main]. *)
Definition script (ev : option event) (s : session) : run_result :=
  match startup (app s) with
  | None => Crashed s
  | Some a => main ev (with_app a s)
  end.

(** The runs that [st.rerun()] asks for, at most [fuel] of them. *)
Fixpoint settle (fuel : nat) (r : run_result) : run_result :=
  match r with
  | Rerun s =>
      match fuel with
      | O => r
      | S fuel' => settle fuel' (script None s)
      end
  | _ => r
  end.

(** One interaction: the run it starts and the reruns that follow. *)
Definition interact (ev : event) (s : session) : run_result :=
  settle 2 (script (Some ev) s).

Definition session_of (r : run_result) : session :=
  match r with
  | Rerun s => s
  | Shown s _ => s
  | Crashed s => s
  end.

Fixpoint run_events (evs : list event) (s : session) : session :=
  match evs with
  | [] => s
  | ev :: rest => run_events rest (session_of (interact ev s))
  end.

Definition known_page (p : string) : Prop :=
  In p ["home"; "setup"; "feedback"; "login"; "dashboard"].

(** Sample form. *)
Definition diner_form : setup_form :=
  {| company_name := "Sunset Restaurant";
     company_type := "Restaurant";
     company_description := "A family diner";
     focus_areas := ["Customer Service"; "Product Quality"];
     custom_categories := "General, Service, Quality, Environment";
     enable_rating := false |}.

(** The file holds the session's list. *)
Definition in_sync (st : state) : Prop :=
  load_feedbacks (feedback_file st) = Some (feedbacks st).

(** The ids count down from the number of records to 1. *)
Definition ids_sequential (st : state) : Prop :=
  map fb_id (feedbacks st) = countdown (List.length (feedbacks st)).

(** The text fields a submission fills are filled. *)
Definition populated (f : feedback) : Prop :=
  fb_original f <> "" /\ 20 <= PyStr.len (fb_improved f) /\ fb_solution f <> "".

Definition writes_succeed (subs : list (form_input * string * io_outcome))
    : Prop :=
  Forall (fun sub => snd sub = IoOk) subs.

(** Empty, or starting with a character that is not white space. *)
Definition starts_tight (s : string) : bool :=
  match s with
  | EmptyString => true
  | String c _ => negb (PyStr.isspace c)
  end.

(** The login form sent with the credentials the code accepts. *)
Definition is_admin_login (ev : option event) : bool :=
  match ev with
  | Some (LoginSubmit username password) =>
      String.eqb username "admin" && String.eqb password "admin123"
  | _ => false
  end.

(** A run's result leaves nobody logged in who was not before. *)
Definition logs_nobody_in (r : run_result) (s : session) : Prop :=
  is_logged_in (session_of r) = true -> is_logged_in s = true.

(** A session at rest: the start-up lines change nothing, the page is one
    of the five, and the dashboard page goes with a login. *)
Definition at_rest (s : session) : Prop :=
  startup (app s) = Some (app s)
  /\ known_page (page s)
  /\ (page s = "dashboard" -> is_logged_in s = true).

Definition settled (r : run_result) : Prop :=
  match r with
  | Rerun _ => False
  | _ => True
  end.





(** ** A write that stops early *)

(** [p] is [full] with at least one character missing at the end. *)
Definition cut_short (p full : string) : Prop :=
  exists q, q <> "" /\ full = p ++ q.

Definition is_int (v : Json.value) : bool :=
  match v with
  | Json.JInt _ => true
  | _ => false
  end.

(** Reading a cut encoding of [v] fails, or -- for a number cut after a
    digit -- uses up all the text. *)
Definition cut_unreadable (v : Json.value) : Prop :=
  forall lvl p fuel,
    cut_short p (Json.encode lvl v) ->
    match Json.scan_once fuel p with
    | None => True
    | Some (_, rest) => rest = "" /\ is_int v = true
    end.

Fixpoint all_digits (s : string) : bool :=
  match s with
  | EmptyString => true
  | String c s' =>
      match Json.digit_of c with
      | Some _ => all_digits s'
      | None => false
      end
  end.

(** Only JSON white space in [s]. *)
Fixpoint all_ws (s : string) : bool :=
  match s with
  | EmptyString => true
  | String c s' => Json.is_ws c && all_ws s'
  end.

(** * Proofs *)

(** ** Strings *)

Section StringFacts.

Lemma append_assoc (a b c : string) : (a ++ b) ++ c = a ++ (b ++ c).
Proof. induction a as [|x a IH]; simpl; [reflexivity | now rewrite IH]. Qed.

Lemma append_empty_r (s : string) : s ++ "" = s.
Proof. induction s as [|c s IH]; simpl; [reflexivity | now rewrite IH]. Qed.

Lemma length_append (a b : string) :
  String.length (a ++ b) = (String.length a + String.length b)%nat.
Proof. induction a as [|x a IH]; simpl; [reflexivity | now rewrite IH]. Qed.

Lemma lower_append (a b : string) :
  PyStr.lower (a ++ b) = PyStr.lower a ++ PyStr.lower b.
Proof. induction a as [|x a IH]; simpl; [reflexivity | now rewrite IH]. Qed.

Lemma truthy_nonempty (s : string) : PyStr.truthy s = true <-> s <> "".
Proof. destruct s; simpl; split; congruence. Qed.

Lemma truthy_empty (s : string) : PyStr.truthy s = false <-> s = "".
Proof. destruct s; simpl; split; congruence. Qed.

Variable d : ascii.
Variable k : string.
Hypothesis d_not_in_k : PyStr.has_char d k = false.

(** A keyword without [d] cannot run across a [d]. *)
Lemma startswith_across (x b : string) :
  PyStr.startswith k (x ++ String d b) = PyStr.startswith k x.
Proof.
  revert x d_not_in_k. induction k as [|a k' IH]; intros x Hd.
  - reflexivity.
  - simpl in Hd. apply orb_false_iff in Hd as [Had Hk'].
    destruct x as [|c x]; simpl.
    + now rewrite Had.
    + now rewrite (IH x Hk').
Qed.

Hypothesis k_nonempty : k <> "".

Lemma contains_across (a b : string) :
  k in_ (a ++ String d b) = k in_ a || k in_ b.
Proof.
  induction a as [|c a IH].
  - pose proof (startswith_across "" b) as H. simpl in H |- *. rewrite H.
    destruct k; [contradiction | reflexivity].
  - pose proof (startswith_across (String c a) b) as H.
    simpl in H |- *. rewrite H, IH. now rewrite orb_assoc.
Qed.

End StringFacts.

(** ** Normalizer *)

Lemma wrapped_longer (t : string) : wrapped t <> t.
Proof.
  intros H. apply (f_equal String.length) in H. unfold wrapped in H.
  rewrite !length_append in H. simpl in H. lia.
Qed.

Lemma normalize_short (t : string) :
  PyStr.len t < 20 -> normalize t = wrapped t.
Proof. intros H. unfold normalize. apply Z.ltb_lt in H. now rewrite H. Qed.

Lemma normalize_long (t : string) :
  20 <= PyStr.len t -> normalize t = t.
Proof.
  intros H. unfold normalize.
  destruct (PyStr.len t <? 20) eqn:E; [apply Z.ltb_lt in E; lia | reflexivity].
Qed.

Lemma normalize_keeps_iff (t : string) :
  normalize t = t <-> 20 <= PyStr.len t.
Proof.
  split.
  - intros H. destruct (Z.lt_ge_cases (PyStr.len t) 20) as [Hlt|Hge]; [|exact Hge].
    rewrite (normalize_short t Hlt) in H. now apply wrapped_longer in H.
  - apply normalize_long.
Qed.

(** On a text without surrounding white space the trimmed reading of the
    rule and the reading on the submitted length agree. *)
Lemma normalize_trimmed_text (t : string) :
  PyStr.strip t = t -> trimmed_length_rule t.
Proof.
  intros Ht _. rewrite Ht.
  split; [apply normalize_keeps_iff | apply normalize_short].
Qed.

(** C1, as stated, fails: a text of two letters followed by twenty spaces
    is 22 characters long, so it is passed through unchanged, although its
    trimmed length is 2. *)
Lemma normalize_trimmed_rule_fails :
  ~ trimmed_length_rule "ok                    ".
Proof.
  intros H. destruct H as [[Hkeep _] _]; [discriminate|].
  assert (Hlen : 20 <= PyStr.len (PyStr.strip "ok                    "))
    by (apply Hkeep; reflexivity).
  vm_compute in Hlen. apply Hlen. reflexivity.
Qed.

(** C1 (amended): for every raw text [t], the normalizer returns [t]
    unchanged if and only if the length of [t] as submitted, not trimmed,
    is at least 20; when that length is below 20 it returns the wrapped
    string, which contains [t] verbatim between the fixed prefix and
    suffix. *)
Theorem normalize_length_rule (t : string) :
  (normalize t = t <-> 20 <= PyStr.len t)
  /\ (PyStr.len t < 20 ->
      normalize t = "Customer feedback indicates: " ++ t
                    ++ ". Additional context would be helpful.").
Proof.
  split; [apply normalize_keeps_iff | apply normalize_short].
Qed.

Lemma normalize_length_rule_witness :
  normalize "ok" = "Customer feedback indicates: ok. Additional context would be helpful."
  /\ 20 <= PyStr.len "The queue was far too slow today".
Proof.
  split.
  - apply (proj2 (normalize_length_rule "ok")). reflexivity.
  - apply (proj1 (normalize_length_rule "The queue was far too slow today")).
    reflexivity.
Defined.


(** ** Classifier *)

Lemma lower_wrapped (t : string) :
  PyStr.lower (wrapped t)
  = "customer feedback indicates:"
    ++ String " " (PyStr.lower t
                   ++ String "." " additional context would be helpful.").
Proof. unfold wrapped. rewrite !lower_append. reflexivity. Qed.

(** The template brings no keyword of its own, and no keyword can use a
    character of the template: the blank before the text and the full stop
    after it fence the text off. *)
Lemma keyword_in_wrapped (k t : string) :
  In k all_keywords ->
  k in_ PyStr.lower (wrapped t) = k in_ PyStr.lower t.
Proof.
  intros Hk. rewrite lower_wrapped.
  assert (Hfacts : PyStr.has_char " " k = false /\ PyStr.has_char "." k = false
                   /\ k <> ""
                   /\ k in_ "customer feedback indicates:" = false
                   /\ k in_ " additional context would be helpful." = false).
  { vm_compute in Hk.
    repeat (destruct Hk as [<-|Hk];
            [repeat split; try reflexivity; discriminate|]).
    contradiction. }
  destruct Hfacts as (Hsp & Hdot & Hne & Hpre & Hsuf).
  rewrite (contains_across " " k Hsp Hne), (contains_across "." k Hdot Hne).
  rewrite Hpre, Hsuf. simpl. apply orb_false_r.
Qed.

Lemma classify_wrapped (t ctx : string) : classify (wrapped t) ctx = classify t ctx.
Proof.
  unfold classify.
  rewrite !keyword_in_wrapped by (vm_compute; tauto). reflexivity.
Qed.

(** Classifying the improved text and classifying the raw text agree. *)
Lemma classify_normalize (t ctx : string) :
  classify (normalize t) ctx = classify t ctx.
Proof.
  unfold normalize. destruct (PyStr.len t <? 20); [apply classify_wrapped | reflexivity].
Qed.

Lemma classify_first_match (t ctx : string) :
  classify t ctx = RuleTable.first_match t ctx.
Proof.
  unfold classify, RuleTable.first_match.
  generalize (PyStr.lower t) as l. intros l.
  cbn [find RuleTable.rules RuleTable.matches existsb RuleTable.keywords
       RuleTable.recommendation].
  repeat match goal with
         | |- context [?k in_ l] =>
             destruct (k in_ l); cbn [orb]; try reflexivity
         end.
Qed.

Lemma find_earliest {A} (p : A -> bool) (l : list A) :
  forall i r,
    nth_error l i = Some r -> p r = true ->
    (forall j r', (j < i)%nat -> nth_error l j = Some r' -> p r' = false) ->
    find p l = Some r.
Proof.
  induction l as [|x l IH]; intros [|i] r Hnth Hp Hbefore; simpl in *;
    try discriminate.
  - injection Hnth as ->. now rewrite Hp.
  - rewrite (Hbefore 0%nat x) by (reflexivity || lia).
    apply (IH i r Hnth Hp). intros j r' Hj Hn.
    apply (Hbefore (S j) r'); [lia | exact Hn].
Qed.

(** C5: the keyword groups are tried in the listed order and the first
    group that matches decides.  The conditional chain of the source equals
    the first-match scan of the ordered rule table; a text whose lower-case
    form contains both "slow" and "clean" gets the staffing/queue
    recommendation; and whenever rule [i] matches and no rule before it
    does, the result is the recommendation of rule [i]. *)
Theorem classify_first_match_wins (t ctx : string) :
  classify t ctx = RuleTable.first_match t ctx
  /\ ("slow" in_ PyStr.lower t = true -> "clean" in_ PyStr.lower t = true ->
      classify t ctx = solution_queue ctx)
  /\ (forall i r,
        nth_error RuleTable.rules i = Some r ->
        RuleTable.matches (PyStr.lower t) r = true ->
        (forall j r', (j < i)%nat -> nth_error RuleTable.rules j = Some r' ->
                      RuleTable.matches (PyStr.lower t) r' = false) ->
        classify t ctx = RuleTable.recommendation r ctx).
Proof.
  split; [apply classify_first_match | split].
  - intros Hslow _. unfold classify. now rewrite Hslow.
  - intros i r Hnth Hp Hbefore. rewrite classify_first_match.
    unfold RuleTable.first_match.
    now rewrite (find_earliest _ _ i r Hnth Hp Hbefore).
Qed.

Lemma classify_first_match_wins_witness :
  classify "The service was SLOW but clean" "Company context: a diner"
  = solution_queue "Company context: a diner".
Proof.
  apply (proj1 (proj2 (classify_first_match_wins
                         "The service was SLOW but clean"
                         "Company context: a diner")));
    reflexivity.
Defined.

(** C10: the category argument influences neither component of the result
    of [process_feedback_with_ai]. *)
Theorem process_feedback_ignores_category (t c1 c2 ctx : string) :
  process_feedback_with_ai t c1 ctx = process_feedback_with_ai t c2 ctx.
Proof. reflexivity. Qed.

(** ** Submission *)

Lemma form_rejects (inp : form_input) (now : string) (io : io_outcome)
    (st : state) :
  PyStr.truthy (PyStr.strip (feedback_text inp)) = false ->
  show_feedback_form inp now io st = (st, ValidationError).
Proof. intros H. unfold show_feedback_form. now rewrite H. Qed.

Lemma form_accepts (inp : form_input) (now : string) (io : io_outcome)
    (st : state) :
  accepted inp ->
  show_feedback_form inp now io st
  = let entry := feedback_entry st inp now in
    let fbs := entry :: feedbacks st in
    ({| feedbacks := fbs;
        company_info := company_info st;
        feedback_file := fst (save_feedbacks io fbs (feedback_file st)) |},
     match snd (save_feedbacks io fbs (feedback_file st)) with
     | Returned => Submitted entry
     | RaisedOSError => SaveRaised entry
     end).
Proof.
  intros H. unfold show_feedback_form. rewrite H.
  destruct io; reflexivity.
Qed.

Lemma feedback_entry_fields (st : state) (inp : form_input) (now : string) :
  feedback_entry st inp now
  = {| fb_id := Z.of_nat (List.length (feedbacks st)) + 1;
       fb_company := company_name_of (company_info st);
       fb_category := category inp;
       fb_rating := rating_of (company_info st) inp;
       fb_original := feedback_text inp;
       fb_improved := normalize (feedback_text inp);
       fb_solution := classify (feedback_text inp)
                        (company_context_of (company_info st));
       fb_timestamp := now |}.
Proof. reflexivity. Qed.

Lemma form_result_entry (inp : form_input) (now : string) (io : io_outcome)
    (st st' : state) (entry : feedback) :
  show_feedback_form inp now io st = (st', Submitted entry) ->
  accepted inp /\ io = IoOk /\ entry = feedback_entry st inp now
  /\ feedbacks st' = entry :: feedbacks st
  /\ feedback_file st' = Some (document (entry :: feedbacks st)).
Proof.
  unfold show_feedback_form, accepted.
  destruct (PyStr.truthy (PyStr.strip (feedback_text inp))); [|discriminate].
  destruct io; simpl; intros H; inversion H; subst; auto.
Qed.

(** C3: the solution stored by a submission is the classifier's answer on
    the improved (normalized) text and the company-context string, which is
    empty when no profile is active.  The source lower-cases the raw text;
    both give the same recommendation, the wrapping template adding no
    keyword. *)
Theorem stored_solution_classifies_improved (inp : form_input) (now : string)
    (io : io_outcome) (st st' : state) (entry : feedback) :
  show_feedback_form inp now io st = (st', Submitted entry) ->
  hd_error (feedbacks st') = Some entry
  /\ fb_improved entry = normalize (feedback_text inp)
  /\ fb_solution entry
     = classify (fb_improved entry) (company_context_of (company_info st))
  /\ company_context_of None = "".
Proof.
  intros H. apply form_result_entry in H as (_ & _ & -> & Hfbs & _).
  rewrite Hfbs, feedback_entry_fields. cbn [hd_error fb_improved fb_solution].
  rewrite classify_normalize. repeat split.
Qed.

(** ** The decoder reads back what the encoder writes *)

Module JsonFacts.
Import Json.

Ltac each_char c := destruct c as [[] [] [] [] [] [] [] []].

Lemma scan_string_escape_char c x :
  scan_string (escape_char c ++ x) = cons_char c (scan_string x).
Proof. each_char c; reflexivity. Qed.

Lemma scan_string_escape s rest :
  scan_string (escape s ++ String dquote rest) = Some (s, rest).
Proof.
  induction s as [|c s IH]; simpl.
  - reflexivity.
  - rewrite append_assoc, scan_string_escape_char, IH. reflexivity.
Qed.

Lemma scan_digits_uint u rest :
  number_end rest = true ->
  scan_digits (NilEmpty.string_of_uint u ++ rest) = (u, rest).
Proof.
  intros Hrest.
  induction u; simpl; try (rewrite IHu; reflexivity).
  destruct rest as [|c r]; [reflexivity|].
  simpl. unfold number_end in Hrest.
  apply andb_true_iff in Hrest as [_ Hd].
  destruct (digit_of c); [discriminate | reflexivity].
Qed.

Lemma to_uint_normal p : Decimal.unorm (Pos.to_uint p) = Pos.to_uint p.
Proof.
  rewrite <- (DecimalPos.Unsigned.to_of (Pos.to_uint p)).
  rewrite DecimalPos.Unsigned.of_to. reflexivity.
Qed.

Lemma to_uint_head p : forall u, Pos.to_uint p <> Decimal.D0 u.
Proof.
  intros u H.
  pose proof (to_uint_normal p) as Hn.
  pose proof (DecimalPos.Unsigned.to_uint_nonzero p) as Hz.
  rewrite H in Hn, Hz.
  rewrite DecimalFacts.unorm_D0 in Hn.
  unfold Decimal.unorm in Hn.
  destruct (Decimal.nzhead u) eqn:E; try discriminate.
  - injection Hn as <-. apply Hz. reflexivity.
  - exfalso. apply (DecimalFacts.nzhead_nonzero u u). congruence.
Qed.

Lemma scan_number_pos p rest :
  number_end rest = true ->
  scan_number (NilEmpty.string_of_uint (Pos.to_uint p) ++ rest)
  = Some (Zpos p, rest)
  /\ scan_number (String "-" (NilEmpty.string_of_uint (Pos.to_uint p) ++ rest))
  = Some (Zneg p, rest).
Proof.
  intros Hrest.
  pose proof (scan_digits_uint (Pos.to_uint p) rest Hrest) as Hd.
  pose proof (DecimalPos.Unsigned.of_to p) as Hof.
  pose proof (to_uint_head p) as Hh.
  pose proof (DecimalPos.Unsigned.to_uint_nonnil p) as Hnil.
  assert (Hf : starts_float_tail rest = false).
  { destruct rest; [reflexivity|]. unfold number_end in Hrest.
    apply andb_true_iff in Hrest as [Hf _]. now apply negb_true_iff in Hf. }
  destruct (Pos.to_uint p) as [|u|u|u|u|u|u|u|u|u|u] eqn:E;
    try (exfalso; apply Hnil; reflexivity);
    try (exfalso; apply (Hh u); reflexivity);
    (split; unfold scan_number; cbn [NilEmpty.string_of_uint append] in *;
     cbn [Ascii.eqb Bool.eqb digit_of PyStr.code N_of_ascii N_of_digits];
     cbn -[scan_digits N.of_uint]; rewrite Hd, Hf; cbn [N.of_uint] in *;
     unfold N.of_uint; rewrite Hof; reflexivity).
Qed.


Lemma encode_int_head z :
  exists c s, encode_int z = String c s /\ value_start c = true
              /\ (Ascii.eqb c "-" || match digit_of c with Some _ => true | None => false end) = true.
Proof.
  destruct z as [|p|p]; simpl.
  - eexists _, _; repeat split; reflexivity.
  - pose proof (DecimalPos.Unsigned.to_uint_nonnil p) as Hnil.
    destruct (Pos.to_uint p); try (exfalso; apply Hnil; reflexivity);
      simpl; eexists _, _; repeat split; reflexivity.
  - eexists _, _; repeat split; reflexivity.
Qed.

Lemma encode_head lvl v :
  exists c s, encode lvl v = String c s /\ value_start c = true.
Proof.
  destruct v as [|[]|z|s|items|ms]; simpl;
    try (eexists _, _; split; reflexivity).
  - destruct (encode_int_head z) as (c & s & E & H & _). eauto.
  - destruct items; simpl; eexists _, _; split; reflexivity.
  - destruct ms; simpl; eexists _, _; split; reflexivity.
Qed.

Lemma skip_ws_indent n s : skip_ws (indent_str n ++ s) = skip_ws s.
Proof. induction n as [|n IH]; simpl; [reflexivity | exact IH]. Qed.

Lemma skip_ws_newline_indent n s : skip_ws (newline_indent n ++ s) = skip_ws s.
Proof. unfold newline_indent. simpl. apply skip_ws_indent. Qed.

Lemma value_start_facts c :
  value_start c = true ->
  is_ws c = false /\ Ascii.eqb c "]" = false /\ Ascii.eqb c "}" = false.
Proof. each_char c; intros H; try discriminate H; repeat split. Qed.

Lemma skip_ws_encode lvl v s : skip_ws (encode lvl v ++ s) = encode lvl v ++ s.
Proof.
  destruct (encode_head lvl v) as (c & t & E & H). rewrite E. simpl.
  destruct (value_start_facts c H) as (-> & _). reflexivity.
Qed.

Lemma scan_once_number fuel c s :
  (Ascii.eqb c "-" || match digit_of c with Some _ => true | None => false end) = true ->
  scan_once (S fuel) (String c s)
  = match scan_number (String c s) with
    | Some (z, rest) => Some (JInt z, rest)
    | None => None
    end.
Proof. each_char c; intros H; try discriminate H; reflexivity. Qed.

Lemma number_end_float s : number_end s = true -> starts_float_tail s = false.
Proof.
  destruct s; [reflexivity|]. unfold number_end. intros H.
  apply andb_true_iff in H as [H _]. now apply negb_true_iff in H.
Qed.

Lemma scan_number_encode z rest :
  number_end rest = true ->
  scan_number (encode_int z ++ rest) = Some (z, rest).
Proof.
  intros H. destruct z as [|p|p].
  - simpl. unfold scan_number. simpl. rewrite (number_end_float _ H). reflexivity.
  - apply (scan_number_pos p rest H).
  - apply (scan_number_pos p rest H).
Qed.

Lemma scan_once_int fuel z rest :
  number_end rest = true ->
  scan_once (S fuel) (encode_int z ++ rest) = Some (JInt z, rest).
Proof.
  intros H. pose proof (scan_number_encode z rest H) as Hn.
  destruct (encode_int_head z) as (c & s & E & _ & Hc).
  rewrite E in *. simpl append in *.
  rewrite (scan_once_number fuel c _ Hc), Hn. reflexivity.
Qed.

Lemma scan_once_str fuel s rest :
  scan_once (S fuel) (encode_str s ++ rest) = Some (JStr s, rest).
Proof.
  unfold encode_str. simpl. rewrite append_assoc. simpl.
  rewrite scan_string_escape. reflexivity.
Qed.






Lemma scan_items_step fuel s :
  scan_items (S fuel) s
  = match scan_once fuel s with
    | None => None
    | Some (v, s1) =>
        match skip_ws s1 with
        | EmptyString => None
        | String c s2 =>
            if Ascii.eqb c "]" then Some ([v], s2)
            else if Ascii.eqb c "," then
              match scan_items fuel (skip_ws s2) with
              | Some (vs, rest) => Some (v :: vs, rest)
              | None => None
              end
            else None
        end
    end.
Proof. reflexivity. Qed.

Lemma number_end_closing lvl cl rest : number_end (closing lvl cl rest) = true.
Proof. reflexivity. Qed.

Lemma skip_ws_closing lvl cl rest :
  is_ws cl = false -> skip_ws (closing lvl cl rest) = String cl rest.
Proof.
  intros H. unfold closing. rewrite skip_ws_newline_indent. simpl. now rewrite H.
Qed.

Lemma array_tail_nil lvl rest : array_tail lvl [] rest = closing lvl "]" rest.
Proof. reflexivity. Qed.

Lemma array_tail_cons lvl y ys rest :
  array_tail lvl (y :: ys) rest
  = String "," (newline_indent (S lvl) ++ encode (S lvl) y ++ array_tail lvl ys rest).
Proof.
  unfold array_tail. cbn [map sep_items]. rewrite !append_assoc. reflexivity.
Qed.

Lemma object_tail_nil lvl rest : object_tail lvl [] rest = closing lvl "}" rest.
Proof. reflexivity. Qed.

Lemma object_tail_cons lvl kv ms rest :
  object_tail lvl (kv :: ms) rest
  = String "," (newline_indent (S lvl) ++ member_text lvl kv ++ object_tail lvl ms rest).
Proof.
  unfold object_tail. cbn [map sep_items]. rewrite !append_assoc. reflexivity.
Qed.

Lemma number_end_array_tail lvl xs rest : number_end (array_tail lvl xs rest) = true.
Proof. destruct xs; [reflexivity | now rewrite array_tail_cons]. Qed.

Lemma number_end_object_tail lvl ms rest : number_end (object_tail lvl ms rest) = true.
Proof. destruct ms; [reflexivity | now rewrite object_tail_cons]. Qed.

Lemma scan_items_encode xs :
  Forall decodes xs ->
  forall x lvl rest fuel,
    decodes x ->
    (list_sum (map (fun v => S (size v)) (x :: xs)) <= fuel)%nat ->
    scan_items fuel (encode (S lvl) x ++ array_tail lvl xs rest)
    = Some (x :: xs, rest).
Proof.
  induction 1 as [|y ys Hy Hys IH]; intros x lvl rest fuel Hx Hfuel.
  - destruct fuel as [|fuel]; [simpl in Hfuel; lia|].
    rewrite scan_items_step, Hx;
      [| simpl in Hfuel; lia | apply number_end_array_tail].
    rewrite array_tail_nil, skip_ws_closing by reflexivity. reflexivity.
  - destruct fuel as [|fuel]; [simpl in Hfuel; lia|].
    rewrite scan_items_step, Hx;
      [| simpl in Hfuel; lia | apply number_end_array_tail].
    rewrite array_tail_cons.
    cbn [skip_ws is_ws PyStr.code N_of_ascii N_of_digits].
    cbn -[scan_items skip_ws encode array_tail newline_indent].
    rewrite skip_ws_newline_indent, skip_ws_encode.
    rewrite IH; [reflexivity | exact Hy | simpl in Hfuel |- *; lia].
Qed.

Lemma scan_members_step fuel k s :
  scan_members (S fuel) (encode_str k ++ ": " ++ s)
  = match scan_once fuel (skip_ws s) with
    | None => None
    | Some (v, s3) =>
        match skip_ws s3 with
        | EmptyString => None
        | String c s4 =>
            if Ascii.eqb c "}" then Some ([(k, v)], s4)
            else if Ascii.eqb c "," then
              match scan_members fuel (skip_ws s4) with
              | Some (ms, rest) => Some ((k, v) :: ms, rest)
              | None => None
              end
            else None
        end
    end.
Proof.
  unfold encode_str.
  change (scan_members (S fuel) (String dquote (escape k ++ String dquote "") ++ ": " ++ s))
    with (match scan_string ((escape k ++ String dquote "") ++ ": " ++ s) with
          | None => None
          | Some (key, s1) =>
              match skip_ws s1 with
              | EmptyString => None
              | String colon s2 =>
                  if negb (Ascii.eqb colon ":") then None
                  else
                    match scan_once fuel (skip_ws s2) with
                    | None => None
                    | Some (v, s3) =>
                        match skip_ws s3 with
                        | EmptyString => None
                        | String c s4 =>
                            if Ascii.eqb c "}" then Some ([(key, v)], s4)
                            else if Ascii.eqb c "," then
                              match scan_members fuel (skip_ws s4) with
                              | Some (ms, rest) => Some ((key, v) :: ms, rest)
                              | None => None
                              end
                            else None
                        end
                    end
              end
          end).
  rewrite append_assoc.
  change (String dquote "" ++ ": " ++ s) with (String dquote (": " ++ s)).
  rewrite scan_string_escape. reflexivity.
Qed.

Lemma scan_members_encode ms :
  Forall (fun kv => decodes (snd kv)) ms ->
  forall kv lvl rest fuel,
    decodes (snd kv) ->
    (list_sum (map (fun m => S (size (snd m))) (kv :: ms)) <= fuel)%nat ->
    scan_members fuel (member_text lvl kv ++ object_tail lvl ms rest)
    = Some (kv :: ms, rest).
Proof.
  induction 1 as [|m ms' Hm Hms IH]; intros [k v] lvl rest fuel Hv Hfuel;
    simpl in Hv, Hfuel.
  - destruct fuel as [|fuel]; [lia|].
    unfold member_text; cbn [fst snd]. rewrite !append_assoc.
    rewrite scan_members_step, skip_ws_encode, Hv;
      [| lia | apply number_end_object_tail].
    rewrite object_tail_nil, skip_ws_closing by reflexivity. reflexivity.
  - destruct fuel as [|fuel]; [lia|].
    unfold member_text at 1; cbn [fst snd]. rewrite !append_assoc.
    rewrite scan_members_step, skip_ws_encode, Hv;
      [| lia | apply number_end_object_tail].
    rewrite object_tail_cons.
    cbn [skip_ws is_ws PyStr.code N_of_ascii N_of_digits].
    cbn -[scan_members skip_ws encode object_tail newline_indent member_text].
    rewrite skip_ws_newline_indent.
    assert (Hskip : skip_ws (member_text lvl m ++ object_tail lvl ms' rest)
                    = member_text lvl m ++ object_tail lvl ms' rest) by reflexivity.
    rewrite Hskip.
    rewrite IH; [reflexivity | exact Hm | simpl; lia].
Qed.

Lemma encode_array_cons lvl x xs rest :
  encode lvl (JArr (x :: xs)) ++ rest
  = String "[" (newline_indent (S lvl) ++ encode (S lvl) x ++ array_tail lvl xs rest).
Proof.
  cbn [encode map bracket append]. unfold array_tail, closing.
  rewrite !append_assoc. reflexivity.
Qed.

Lemma encode_object_cons lvl kv ms rest :
  encode lvl (JObj (kv :: ms)) ++ rest
  = String "{" (newline_indent (S lvl) ++ member_text lvl kv ++ object_tail lvl ms rest).
Proof.
  cbn [encode map bracket append]. unfold object_tail, closing, member_text.
  rewrite !append_assoc. reflexivity.
Qed.

Lemma scan_once_array fuel n c body :
  value_start c = true ->
  scan_once (S fuel) (String "[" (newline_indent n ++ String c body))
  = match scan_items fuel (String c body) with
    | Some (items, rest) => Some (JArr items, rest)
    | None => None
    end.
Proof.
  intros Hc. destruct (value_start_facts c Hc) as (Hws & Hb & _).
  cbn -[scan_items skip_ws newline_indent].
  rewrite skip_ws_newline_indent. cbn [skip_ws]. rewrite Hws, Hb. reflexivity.
Qed.

Lemma scan_once_object fuel n body :
  scan_once (S fuel) (String "{" (newline_indent n ++ String dquote body))
  = match scan_members fuel (String dquote body) with
    | Some (members, rest) => Some (JObj members, rest)
    | None => None
    end.
Proof.
  cbn -[scan_members skip_ws newline_indent].
  rewrite skip_ws_newline_indent. reflexivity.
Qed.

Theorem scan_once_encode v : decodes v.
Proof.
  induction v as [|b|z|s|items IH|ms IH] using value_induction;
    intros lvl rest fuel Hfuel Hrest;
    (destruct fuel as [|fuel]; [simpl in Hfuel; lia|]).
  - reflexivity.
  - destruct b; reflexivity.
  - apply scan_once_int, Hrest.
  - apply scan_once_str.
  - destruct IH as [|x xs Hx Hxs]; [reflexivity|].
    rewrite encode_array_cons.
    pose proof (scan_items_encode xs Hxs x lvl rest fuel Hx) as Hitems.
    destruct (encode_head (S lvl) x) as (c & t & E & Hc).
    rewrite E in *. cbn [append] in *.
    rewrite (scan_once_array fuel _ c _ Hc), Hitems; [reflexivity|].
    simpl in Hfuel |- *. lia.
  - destruct IH as [|[k x] xs Hx Hxs]; [reflexivity|].
    rewrite encode_object_cons.
    pose proof (scan_members_encode xs Hxs (k, x) lvl rest fuel Hx) as Hms.
    unfold member_text at 1 in Hms. unfold member_text at 1.
    unfold encode_str at 1 in Hms. unfold encode_str at 1.
    cbn [append fst] in *.
    rewrite scan_once_object, Hms; [reflexivity|].
    simpl in Hfuel |- *. lia.
Qed.

Lemma length_sep_items {A} sep (f : A -> string) (g : A -> nat) xs :
  Forall (fun x => (g x <= String.length (f x))%nat) xs ->
  (1 <= String.length sep)%nat ->
  (list_sum (map (fun x => S (g x)) xs)
   <= String.length (sep_items sep (map f xs)))%nat.
Proof.
  intros H Hsep. induction H as [|x xs Hx _ IH]; simpl; [lia|].
  rewrite !length_append. lia.
Qed.

Lemma length_bracket {A} o c lvl (f : A -> string) (g : A -> nat) xs :
  Forall (fun x => (g x <= String.length (f x))%nat) xs ->
  (S (list_sum (map (fun x => S (g x)) xs))
   <= String.length (bracket o c lvl (map f xs)))%nat.
Proof.
  intros H. destruct H as [|x xs Hx Hxs]; [simpl; lia|].
  assert (Hs := length_sep_items (String "," (newline_indent (S lvl))) f g xs Hxs).
  specialize (Hs ltac:(simpl; lia)).
  cbn [map bracket String.length list_sum]. rewrite !length_append.
  cbn [newline_indent String.length]. unfold list_sum. cbn [fold_right].
  fold (list_sum (map (fun x0 => S (g x0)) xs)). lia.
Qed.

Lemma size_le_length v : forall lvl, (size v <= String.length (encode lvl v))%nat.
Proof.
  induction v as [|b|z|s|items IH|ms IH] using value_induction; intros lvl.
  - simpl; lia.
  - destruct b; simpl; lia.
  - destruct (encode_int_head z) as (c & s & E & _). simpl. rewrite E. simpl. lia.
  - simpl. lia.
  - cbn [size encode]. apply length_bracket.
    eapply Forall_impl; [|exact IH]. intros x Hx. apply Hx.
  - cbn [size encode].
    apply (length_bracket "{" "}" lvl
             (fun kv => encode_str (fst kv) ++ ": " ++ encode (S lvl) (snd kv))
             (fun kv => size (snd kv))).
    eapply Forall_impl; [|exact IH]. intros [k x] Hx. cbn [fst snd] in *.
    rewrite !length_append. specialize (Hx (S lvl)). lia.
Qed.


Theorem loads_dumps v : loads (dumps v) = Some v.
Proof.
  unfold loads, dumps.
  rewrite <- (append_empty_r (encode 0 v)) at 2.
  rewrite skip_ws_encode, append_empty_r.
  rewrite <- (append_empty_r (encode 0 v)) at 2.
  rewrite scan_once_encode; [reflexivity | | reflexivity].
  pose proof (size_le_length v 0). lia.
Qed.

End JsonFacts.

(** ** Record store *)

Lemma feedback_of_to_json f : feedback_of_json (feedback_to_json f) = Some f.
Proof. destruct f; reflexivity. Qed.

Lemma feedbacks_of_to_json fbs :
  feedbacks_of_json (map feedback_to_json fbs) = Some fbs.
Proof.
  induction fbs as [|f fbs IH]; [reflexivity|].
  cbn [map feedbacks_of_json]. rewrite feedback_of_to_json, IH. reflexivity.
Qed.

Theorem load_document fbs : load_feedbacks (Some (document fbs)) = Some fbs.
Proof.
  unfold load_feedbacks, document. rewrite JsonFacts.loads_dumps.
  apply feedbacks_of_to_json.
Qed.

Lemma save_ok (fbs : list feedback) (file : option string) :
  save_feedbacks IoOk fbs file = (Some (document fbs), Returned).
Proof. reflexivity. Qed.

Lemma save_fails (io : io_outcome) (fbs : list feedback) (file : option string) :
  io <> IoOk -> snd (save_feedbacks io fbs file) = RaisedOSError.
Proof. destruct io; [contradiction | reflexivity | reflexivity]. Qed.

Lemma startup_empty (st : state) :
  feedbacks st = [] -> load_feedbacks (feedback_file st) = Some [] ->
  startup st = Some st.
Proof.
  intros Hf Hl. unfold startup. rewrite Hf, Hl, <- Hf. now destruct st.
Qed.

Lemma startup_nonempty (st : state) :
  feedbacks st <> [] -> startup st = Some st.
Proof. unfold startup. destruct (feedbacks st); [contradiction | reflexivity]. Qed.

Lemma form_submits (inp : form_input) (now : string) (st : state) :
  accepted inp ->
  show_feedback_form inp now IoOk st
  = ({| feedbacks := feedback_entry st inp now :: feedbacks st;
        company_info := company_info st;
        feedback_file :=
          Some (document (feedback_entry st inp now :: feedbacks st)) |},
     Submitted (feedback_entry st inp now)).
Proof. intros H. now rewrite form_accepts. Qed.

(** C4: a text that is empty or blank after trimming is rejected with the
    validation error, and the state -- the session's list of records and
    the content of the file alike -- is returned as it was; so is it for
    the empty text with category "General", rating 3 and no profile. *)
Theorem blank_text_rejected (inp : form_input) (now : string)
    (io : io_outcome) (st : state) :
  PyStr.strip (feedback_text inp) = "" ->
  show_feedback_form inp now io st = (st, ValidationError).
Proof. intros H. apply form_rejects. now rewrite H. Qed.

Lemma blank_text_rejected_witness :
  show_feedback_form (sample_input "") "2024-03-01 12:00:00" IoOk fresh_state
  = (fresh_state, ValidationError)
  /\ show_feedback_form (sample_input "   ") "2024-03-01 12:00:00" IoOk
       fresh_state
     = (fresh_state, ValidationError).
Proof.
  split; apply blank_text_rejected; reflexivity.
Defined.

Lemma stored_solution_classifies_improved_witness :
  fb_solution (feedback_entry diner_state (sample_input "ok") "2024-03-01 12:00:00")
  = classify
      (fb_improved (feedback_entry diner_state (sample_input "ok")
                      "2024-03-01 12:00:00"))
      "Company context: A family diner".
Proof.
  apply (stored_solution_classifies_improved (sample_input "ok")
           "2024-03-01 12:00:00" IoOk diner_state _ _ eq_refl).
Defined.

(** C2, as stated, fails: with the file unwritable, the submission of
    "The queue was slow" to an empty session raises, yet the session then
    holds the new record. *)
Lemma failed_save_keeps_record_in_session :
  ~ failed_save_leaves_no_trace (sample_input "The queue was slow")
      "2024-03-01 12:00:00" IoOpenError fresh_state.
Proof.
  unfold failed_save_leaves_no_trace. intros H.
  assert (Hne : PyStr.strip (feedback_text (sample_input "The queue was slow")) <> "")
    by discriminate.
  assert (Hio : IoOpenError <> IoOk) by discriminate.
  specialize (H Hne Hio). cbv in H. destruct H as [_ H]. discriminate H.
Qed.

(** C2 (amended): when the save fails during a submission, the exception of
    [save_feedbacks] reaches the caller and no success is reported, but the
    new record has already been inserted at the front of the session's list
    and stays there: the in-memory store has grown by that record (the file
    is untouched when [open] itself failed), and a retry of the submission
    computes its id from the grown store, one above the id of the failed
    attempt. *)
Theorem failed_save_reported_record_kept (inp : form_input) (now now' : string)
    (io : io_outcome) (st : state) :
  accepted inp -> io <> IoOk ->
  exists st',
    show_feedback_form inp now io st
    = (st', SaveRaised (feedback_entry st inp now))
    /\ feedbacks st' = feedback_entry st inp now :: feedbacks st
    /\ (io = IoOpenError -> feedback_file st' = feedback_file st)
    /\ fb_id (feedback_entry st' inp now')
       = fb_id (feedback_entry st inp now) + 1.
Proof.
  intros Hacc Hio. rewrite (form_accepts inp now io st Hacc).
  cbv zeta. rewrite (save_fails io _ _ Hio).
  eexists. split; [reflexivity|]. cbn [feedbacks feedback_file].
  split; [reflexivity | split].
  - intros ->. reflexivity.
  - rewrite !feedback_entry_fields. cbn [fb_id feedbacks List.length]. lia.
Qed.

Lemma failed_save_reported_record_kept_witness :
  exists st',
    show_feedback_form (sample_input "The queue was slow")
      "2024-03-01 12:00:00" IoOpenError fresh_state
    = (st', SaveRaised (feedback_entry fresh_state
                          (sample_input "The queue was slow")
                          "2024-03-01 12:00:00"))
    /\ map fb_id (feedbacks st') = [1]
    /\ fb_id (feedback_entry st' (sample_input "The queue was slow")
                "2024-03-01 12:00:05") = 2.
Proof.
  destruct (failed_save_reported_record_kept
              (sample_input "The queue was slow") "2024-03-01 12:00:00"
              "2024-03-01 12:00:05" IoOpenError fresh_state)
    as (st' & Hrun & Hfbs & _ & Hid).
  - reflexivity.
  - discriminate.
  - exists st'. split; [exact Hrun | split].
    + rewrite Hfbs. reflexivity.
    + rewrite Hid. reflexivity.
Defined.

(** ** Ratings *)






(** ** Sequences of submissions *)

Lemma run_submit_ok (inp : form_input) (now : string) (st : state) :
  accepted inp -> startup st = Some st ->
  run_submit inp now IoOk st
  = Some ({| feedbacks := feedback_entry st inp now :: feedbacks st;
             company_info := company_info st;
             feedback_file :=
               Some (document (feedback_entry st inp now :: feedbacks st)) |},
          Submitted (feedback_entry st inp now)).
Proof.
  intros Hacc Hst. unfold run_submit. rewrite Hst.
  now rewrite (form_submits inp now st Hacc).
Qed.

(** C6: from an empty store, three accepted submissions whose writes
    succeed leave the records with ids 3, 2, 1 from the front, the texts in
    reverse order of submission, each id being the store's size at that
    moment plus one; and [load_feedbacks] on the file written returns that
    same list, ids [3; 2; 1]. *)
Theorem three_submissions_newest_first (st0 : state) (i1 i2 i3 : form_input)
    (n1 n2 n3 : string) :
  feedbacks st0 = [] ->
  load_feedbacks (feedback_file st0) = Some [] ->
  accepted i1 -> accepted i2 -> accepted i3 ->
  exists st3 fbs,
    run_submits [(i1, n1); (i2, n2); (i3, n3)] st0 = Some st3
    /\ feedbacks st3 = fbs
    /\ load_feedbacks (feedback_file st3) = Some fbs
    /\ map fb_id fbs = [3; 2; 1]
    /\ map fb_original fbs
       = [feedback_text i3; feedback_text i2; feedback_text i1]
    /\ (forall st inp now,
          fb_id (feedback_entry st inp now)
          = Z.of_nat (List.length (feedbacks st)) + 1).
Proof.
  intros Hempty Hload H1 H2 H3.
  cbn [run_submits].
  rewrite (run_submit_ok i1 n1 st0 H1 (startup_empty st0 Hempty Hload)).
  rewrite run_submit_ok; [| exact H2 | now apply startup_nonempty].
  rewrite run_submit_ok; [| exact H3 | now apply startup_nonempty].
  eexists _, _. split; [reflexivity|].
  cbn [feedbacks feedback_file company_info]. split; [reflexivity|].
  split; [apply load_document|].
  rewrite !feedback_entry_fields, Hempty.
  cbn [map fb_id fb_original feedbacks List.length]. repeat split.
Qed.

Lemma three_submissions_newest_first_witness :
  exists st3,
    run_submits [(sample_input "The queue was slow", "2024-03-01 12:00:00");
                 (sample_input "Great food", "2024-03-01 12:05:00");
                 (sample_input "Too expensive", "2024-03-01 12:10:00")]
      fresh_state = Some st3
    /\ option_map (map fb_id) (load_feedbacks (feedback_file st3))
       = Some [3; 2; 1].
Proof.
  destruct (three_submissions_newest_first fresh_state
              (sample_input "The queue was slow")
              (sample_input "Great food")
              (sample_input "Too expensive")
              "2024-03-01 12:00:00" "2024-03-01 12:05:00"
              "2024-03-01 12:10:00")
    as (st3 & fbs & Hrun & _ & Hload & Hids & _); try reflexivity.
  exists st3. split; [exact Hrun|]. rewrite Hload. cbn [option_map].
  now rewrite Hids.
Defined.

(** ** Save after load *)

Lemma resave_loaded (file : option string) (fbs : list feedback) :
  load_feedbacks file = Some fbs -> resave file = Some (Some (document fbs)).
Proof. intros H. unfold resave. now rewrite H. Qed.

(** C8: saving what was just loaded is idempotent.  Whenever the file
    loads as the records [fbs], [save_feedbacks(load_feedbacks())] writes a
    document that loads as the same records with the same field values in
    the same order, saving again after loading again rewrites that very
    document, and a document written by [save_feedbacks] is rewritten
    character for character. *)
Theorem resave_idempotent (file : option string) (fbs : list feedback) :
  load_feedbacks file = Some fbs ->
  exists file',
    resave file = Some file'
    /\ load_feedbacks file' = Some fbs
    /\ resave file' = Some file'
    /\ resave (Some (document fbs)) = Some (Some (document fbs)).
Proof.
  intros H. exists (Some (document fbs)).
  pose proof (load_document fbs) as Hdoc.
  repeat split; try (now apply resave_loaded); exact Hdoc.
Qed.

Lemma resave_idempotent_witness :
  exists file',
    resave (Some hand_written_file) = Some file'
    /\ load_feedbacks file' = Some [hand_written_record]
    /\ resave file' = Some file'.
Proof.
  destruct (resave_idempotent (Some hand_written_file) [hand_written_record])
    as (file' & H1 & H2 & H3 & _); [reflexivity|].
  exists file'. repeat split; assumption.
Defined.

(** ** Dashboard statistics *)

Lemma fold_add_shift (l : list Z) (a : Z) :
  fold_left Z.add l a = a + fold_left Z.add l 0.
Proof.
  revert a. induction l as [|x l IH]; intros a; simpl; [lia|].
  rewrite (IH (a + x)), (IH x). lia.
Qed.

Lemma py_sum_cons (x : Z) (l : list Z) : py_sum (x :: l) = x + py_sum l.
Proof. unfold py_sum. simpl. apply fold_add_shift. Qed.

Lemma py_sum_ones {A} (l : list A) :
  py_sum (map (fun _ => 1) l) = Z.of_nat (List.length l).
Proof.
  induction l as [|x l IH]; [reflexivity|].
  cbn [map List.length]. rewrite py_sum_cons, IH. lia.
Qed.

Lemma rating_divisor_count (fbs : list feedback) :
  rating_divisor fbs = Z.max 1 (Z.of_nat (List.length (rated fbs))).
Proof. unfold rating_divisor. now rewrite py_sum_ones. Qed.

Lemma rating_divisor_positive (fbs : list feedback) : 1 <= rating_divisor fbs.
Proof. unfold rating_divisor. lia. Qed.

Lemma round_half_even_lower (n d N : Z) :
  0 < d -> N * d <= n -> N <= round_half_even n d.
Proof.
  intros Hd H. unfold round_half_even.
  assert (Hq : N <= n / d) by (apply Z.div_le_lower_bound; lia).
  repeat match goal with
         | |- context [if ?b then _ else _] => destruct b
         end; lia.
Qed.

Lemma round_half_even_upper (n d N : Z) :
  0 < d -> n <= N * d -> round_half_even n d <= N.
Proof.
  intros Hd H. unfold round_half_even.
  pose proof (Z.div_mod n d ltac:(lia)) as Hdm.
  pose proof (Z.mod_pos_bound n d Hd) as Hr.
  assert (Hq : n / d <= N) by (apply Z.div_le_upper_bound; lia).
  destruct (2 * (n mod d) <? d) eqn:E1; [lia|].
  apply Z.ltb_ge in E1.
  assert (n / d < N) by nia.
  repeat match goal with
         | |- context [if ?b then _ else _] => destruct b
         end; lia.
Qed.

Lemma ratio_log2_small (n d : Z) :
  0 < d -> 0 < n -> n <= 5 * d -> ratio_log2 n d <= 3.
Proof.
  intros Hd Hn H. unfold ratio_log2.
  assert (Z.log2 n <= 3 + Z.log2 d).
  { rewrite <- (Z.log2_mul_pow2 d 3) by lia. apply Z.log2_le_mono. lia. }
  destruct (_ <=? _); lia.
Qed.

(** A quotient between 1 and 5 is rounded to a double between 1 and 5. *)
Lemma true_div_in_range (a b : Z) :
  0 < b -> b <= a -> a <= 5 * b ->
  exists q, true_div a b = Quotient q /\ (1 <= q)%Q /\ (q <= 5 # 1)%Q.
Proof.
  intros Hb Hlo Hhi. unfold true_div.
  destruct (Z.eqb_spec b 0) as [|_]; [lia|].
  destruct (Z.eqb_spec a 0) as [|_]; [lia|].
  rewrite (Z.abs_eq a), (Z.abs_eq b) by lia.
  destruct (Z.ltb_spec a 0) as [|_]; [lia|].
  destruct (Z.ltb_spec b 0) as [|_]; [lia|].
  cbn [xorb]. unfold double_of_ratio.
  pose proof (ratio_log2_small a b Hb ltac:(lia) Hhi) as He.
  set (x := Z.max (ratio_log2 a b - 52) (- 1074)).
  assert (Hx : x < 0) by (unfold x; lia).
  destruct (Z.leb_spec 0 x) as [|_]; [lia|].
  assert (Hp : 0 < 2 ^ (- x)) by (apply Z.pow_pos_nonneg; lia).
  eexists. split; [reflexivity|].
  unfold Qle. cbn [Qnum Qden]. rewrite Z2Pos.id by exact Hp.
  split.
  - pose proof (round_half_even_lower (a * 2 ^ (- x)) b (2 ^ (- x)) Hb) as H.
    specialize (H ltac:(nia)). lia.
  - pose proof (round_half_even_upper (a * 2 ^ (- x)) b (5 * 2 ^ (- x)) Hb) as H.
    specialize (H ltac:(nia)). lia.
Qed.

Lemma true_div_nonzero_divisor (a b : Z) :
  b <> 0 -> true_div a b <> ZeroDivisionError.
Proof.
  intros Hb. unfold true_div.
  destruct (Z.eqb_spec b 0) as [|_]; [contradiction|].
  destruct (a =? 0); [discriminate|].
  destruct (double_of_ratio _ _); discriminate.
Qed.

Lemma rated_without_unrated (fbs : list feedback) :
  rated (without_unrated fbs) = rated fbs.
Proof.
  unfold rated, without_unrated.
  induction fbs as [|f fbs IH]; [reflexivity|]. cbn [filter].
  destruct (fb_rating f =? 0) eqn:E0; cbn [negb filter].
  - apply Z.eqb_eq in E0. rewrite E0. cbn. exact IH.
  - now rewrite IH.
Qed.

Lemma avg_rating_unrated_only (fbs : list feedback) :
  rated fbs = [] -> avg_rating fbs = Quotient (inject_Z 0).
Proof.
  intros H. unfold avg_rating, rating_total, rating_divisor. rewrite H.
  destruct (Z.of_nat (List.length fbs) >? 0); reflexivity.
Qed.

Lemma rated_of_nil_filter (fbs : list feedback) :
  without_unrated fbs = [] -> rated fbs = [].
Proof. intros H. rewrite <- rated_without_unrated, H. reflexivity. Qed.

Lemma avg_rating_without_unrated (fbs : list feedback) :
  avg_rating (without_unrated fbs) = avg_rating fbs.
Proof.
  destruct (without_unrated fbs) as [|g gs] eqn:E.
  - now rewrite (avg_rating_unrated_only fbs (rated_of_nil_filter fbs E)).
  - rewrite <- E. unfold avg_rating, rating_total, rating_divisor.
    rewrite rated_without_unrated.
    assert (Hw : (Z.of_nat (List.length (without_unrated fbs)) >? 0) = true)
      by (rewrite E; cbn [List.length]; apply Z.gtb_lt; lia).
    assert (Hf : (Z.of_nat (List.length fbs) >? 0) = true).
    { destruct fbs; [discriminate E|]. cbn [List.length]. apply Z.gtb_lt. lia. }
    now rewrite Hw, Hf.
Qed.

Lemma rated_are_positive (fbs : list feedback) :
  Forall (fun f => 0 < fb_rating f) (rated fbs).
Proof.
  unfold rated. apply Forall_forall. intros f Hf.
  apply filter_In in Hf as [_ Hf]. now apply Z.gtb_lt in Hf.
Qed.

Lemma rated_in_range (fbs : list feedback) :
  Forall rating_in_range fbs -> Forall rating_in_range (rated fbs).
Proof.
  intros H. unfold rated. apply Forall_forall. intros f Hf.
  apply filter_In in Hf as [Hf _]. rewrite Forall_forall in H. now apply H.
Qed.

Lemma rating_total_bounds (fbs : list feedback) :
  Z.of_nat (List.length (rated fbs)) <= rating_total fbs
  /\ (Forall rating_in_range fbs ->
      rating_total fbs <= 5 * Z.of_nat (List.length (rated fbs))).
Proof.
  unfold rating_total. split.
  - assert (H : forall l, Forall (fun f => 0 < fb_rating f) l ->
                Z.of_nat (List.length l) <= py_sum (map fb_rating l)).
    { induction 1 as [|f l Hf _ IH]; [cbn; lia|].
      cbn [map List.length]. rewrite py_sum_cons. lia. }
    apply H, rated_are_positive.
  - intros Hr.
    assert (H : forall l, Forall rating_in_range l ->
                py_sum (map fb_rating l) <= 5 * Z.of_nat (List.length l)).
    { induction 1 as [|f l Hf _ IH]; [cbn; lia|].
      cbn [map List.length]. rewrite py_sum_cons.
      unfold rating_in_range in Hf. lia. }
    apply H, rated_in_range, Hr.
Qed.

Lemma avg_rating_nonempty (f : feedback) (fbs : list feedback) :
  avg_rating (f :: fbs)
  = true_div (rating_total (f :: fbs)) (rating_divisor (f :: fbs)).
Proof.
  unfold avg_rating.
  assert (H : (Z.of_nat (List.length (f :: fbs)) >? 0) = true)
    by (cbn [List.length]; apply Z.gtb_lt; lia).
  now rewrite H.
Qed.

(** With every rating in 0..5 the average is a number: 0 when no record
    is rated, between 1 and 5 otherwise. *)
Lemma avg_rating_in_range (fbs : list feedback) :
  Forall rating_in_range fbs ->
  (rated fbs = [] /\ avg_rating fbs = Quotient (inject_Z 0))
  \/ (rated fbs <> []
      /\ exists q, avg_rating fbs = Quotient q /\ (1 <= q)%Q /\ (q <= 5 # 1)%Q).
Proof.
  intros Hr. destruct (rated fbs) as [|r rs] eqn:E.
  - left. split; [reflexivity | now apply avg_rating_unrated_only].
  - right. split; [discriminate|].
    destruct fbs as [|f fbs]; [discriminate E|]. rewrite avg_rating_nonempty.
    destruct (rating_total_bounds (f :: fbs)) as [Hlo Hhi].
    specialize (Hhi Hr). rewrite rating_divisor_count.
    rewrite E in *. cbn [List.length] in *.
    apply true_div_in_range; lia.
Qed.

(** C9, as stated, fails: a record whose rating has 401 digits is written
    and read back by the store like any other, and on the store that holds
    it the division of line 320 raises [OverflowError]. *)
Lemma avg_rating_overflows :
  load_feedbacks (fst (save_feedbacks IoOk [overrated_record] None))
  = Some [overrated_record]
  /\ ~ average_defined [overrated_record].
Proof.
  split; [apply load_document|].
  intros [q H]. vm_compute in H. discriminate H.
Qed.

(** C9 (amended): the average rating of the dashboard never divides by
    zero, on any list of records: for an empty list it is 0, for any other
    the true division of the sum of the ratings above 0 by the larger of 1
    and the number of records with such a rating, and removing the records
    with rating 0 changes neither the sum, nor the divisor, nor the
    average.  It is a number, between 0 and 5, whenever every rating lies
    in 0..5, as the ratings the form stores do; a rating too large for a
    float makes the division raise [OverflowError]. *)
Theorem avg_rating_never_divides_by_zero (fbs : list feedback) :
  avg_rating fbs
  = match fbs with
    | [] => Quotient (inject_Z 0)
    | _ :: _ => true_div (rating_total fbs) (rating_divisor fbs)
    end
  /\ rating_total fbs
     = py_sum (map fb_rating (filter (fun f => fb_rating f >? 0) fbs))
  /\ rating_divisor fbs
     = Z.max 1 (Z.of_nat (List.length
                            (filter (fun f => fb_rating f >? 0) fbs)))
  /\ 1 <= rating_divisor fbs
  /\ avg_rating fbs <> ZeroDivisionError
  /\ (Forall rating_in_range fbs ->
      exists q, avg_rating fbs = Quotient q /\ (0 <= q)%Q /\ (q <= 5 # 1)%Q)
  /\ rating_total (without_unrated fbs) = rating_total fbs
  /\ rating_divisor (without_unrated fbs) = rating_divisor fbs
  /\ avg_rating (without_unrated fbs) = avg_rating fbs.
Proof.
  pose proof (rating_divisor_positive fbs) as Hpos.
  assert (Hdef : avg_rating fbs
                 = match fbs with
                   | [] => Quotient (inject_Z 0)
                   | _ :: _ => true_div (rating_total fbs) (rating_divisor fbs)
                   end)
    by (destruct fbs; [reflexivity | apply avg_rating_nonempty]).
  repeat split.
  - exact Hdef.
  - apply rating_divisor_count.
  - exact Hpos.
  - rewrite Hdef. destruct fbs; [discriminate|].
    apply true_div_nonzero_divisor. lia.
  - intros Hr.
    destruct (avg_rating_in_range fbs Hr)
      as [[_ ->]|(_ & q & -> & Hlo & Hhi)].
    + eexists. split; [reflexivity|]. split; unfold Qle; cbn; lia.
    + exists q. split; [reflexivity|]. split; [|exact Hhi].
      unfold Qle in *. cbn [Qnum Qden] in *. lia.
  - unfold rating_total. now rewrite rated_without_unrated.
  - unfold rating_divisor. now rewrite rated_without_unrated.
  - apply avg_rating_without_unrated.
Qed.

Lemma avg_rating_never_divides_by_zero_witness :
  exists q,
    avg_rating [hand_written_record] = Quotient q
    /\ (0 <= q)%Q /\ (q <= 5 # 1)%Q.
Proof.
  apply (avg_rating_never_divides_by_zero [hand_written_record]).
  repeat constructor; unfold rating_in_range; simpl; lia.
Defined.

(** ** Worked examples *)

Example strip_example : PyStr.strip "   The queue was slow  " = "The queue was slow".
Proof. reflexivity. Qed.

Example lower_example : PyStr.lower "Too SLOW, but Clean" = "too slow, but clean".
Proof. reflexivity. Qed.

Example normalize_example :
  normalize "Great service!"
  = "Customer feedback indicates: Great service!. Additional context would be helpful.".
Proof. reflexivity. Qed.

Example classify_default_example :
  classify "Nothing to report" ""
  = "Recommendation: Follow up with customer for more specific details. Consider implementing regular feedback sessions.".
Proof. reflexivity. Qed.

Example true_div_third :
  true_div 1 3 = Quotient (6004799503160661 # 18014398509481984).
Proof. reflexivity. Qed.

Example true_div_tenth :
  true_div 1 10 = Quotient (7205759403792794 # 72057594037927936).
Proof. reflexivity. Qed.

Example true_div_nine_halves :
  exists q, true_div 9 2 = Quotient q /\ (q == 9 # 2)%Q.
Proof. eexists. split; [reflexivity|]. vm_compute. reflexivity. Qed.

Example true_div_negative :
  exists q, true_div (-7) 2 = Quotient q /\ (q == - (7 # 2))%Q.
Proof. eexists. split; [reflexivity|]. vm_compute. reflexivity. Qed.

Example true_div_largest_double :
  true_div (2 ^ 1024 - 2 ^ 970 - 1) 1
  = Quotient (inject_Z (2 ^ 1024 - 2 ^ 971)).
Proof. vm_compute. reflexivity. Qed.

Example true_div_overflow : true_div (2 ^ 1024 - 2 ^ 970) 1 = OverflowError.
Proof. vm_compute. reflexivity. Qed.

Example true_div_by_zero : true_div 5 0 = ZeroDivisionError.
Proof. reflexivity. Qed.

Example avg_rating_example :
  exists q,
    avg_rating [hand_written_record; hand_written_record] = Quotient q
    /\ (q == inject_Z (fb_rating hand_written_record))%Q.
Proof. eexists. split; [reflexivity|]. vm_compute. reflexivity. Qed.

Example document_empty : document [] = "[]".
Proof. reflexivity. Qed.

Example loads_trailing_comma : Json.loads "[1, 2,]" = None.
Proof. reflexivity. Qed.

Example loads_spaced_array :
  Json.loads " [ 1 , -20,0 ] "
  = Some (Json.JArr [Json.JInt 1; Json.JInt (-20); Json.JInt 0]).
Proof. reflexivity. Qed.

Example load_missing_file : load_feedbacks None = Some [].
Proof. reflexivity. Qed.

(** "Great service, loved it!" with rating 5 and no profile: the record
    keeps the text, carries rating 5 and id 1, and gets the positive
    acknowledgment. *)
Example great_service_example :
  exists st' entry,
    show_feedback_form
      {| category := "General"; slider := 5;
         feedback_text := "Great service, loved it!" |}
      "2024-03-01 12:00:00" IoOk fresh_state
    = (st', Submitted entry)
    /\ fb_id entry = 1
    /\ fb_rating entry = 5
    /\ fb_improved entry = "Great service, loved it!"
    /\ fb_solution entry = solution_positive
    /\ load_feedbacks (feedback_file st') = Some [entry].
Proof.
  eexists _, _. split; [reflexivity|]. repeat split.
Qed.

(** * Further properties *)

(** ** Record store and form runs *)

(** X1: whatever list of records [save_feedbacks] writes successfully --
    texts with quotes, backslashes, line breaks or non-ASCII characters
    included --, [load_feedbacks] then returns that very list, and what the
    file held before plays no part. *)
Theorem saved_store_loads_back (fbs : list feedback) (file : option string) :
  load_feedbacks (fst (save_feedbacks IoOk fbs file)) = Some fbs.
Proof. rewrite save_ok. apply load_document. Qed.

Lemma form_run_feedbacks (inp : form_input) (now : string) (io : io_outcome)
    (st : state) :
  feedbacks (fst (show_feedback_form inp now io st))
  = if PyStr.truthy (PyStr.strip (feedback_text inp))
    then feedback_entry st inp now :: feedbacks st
    else feedbacks st.
Proof.
  unfold show_feedback_form.
  destruct (PyStr.truthy (PyStr.strip (feedback_text inp))); [|reflexivity].
  destruct io; reflexivity.
Qed.

Lemma form_run_company_info (inp : form_input) (now : string)
    (io : io_outcome) (st : state) :
  company_info (fst (show_feedback_form inp now io st)) = company_info st.
Proof.
  unfold show_feedback_form.
  destruct (PyStr.truthy (PyStr.strip (feedback_text inp))); [|reflexivity].
  destruct io; reflexivity.
Qed.

Lemma form_run_in_sync (inp : form_input) (now : string) (st : state) :
  in_sync st -> in_sync (fst (show_feedback_form inp now IoOk st)).
Proof.
  intros Hs. unfold show_feedback_form.
  destruct (PyStr.truthy (PyStr.strip (feedback_text inp))); [|exact Hs].
  unfold in_sync. cbn [save_feedbacks fst feedbacks feedback_file].
  apply load_document.
Qed.

(** X2: as long as every write succeeds, the file keeps holding exactly
    the session's list through any sequence of form runs, accepted or
    rejected: loading it gives the list the session holds. *)
Theorem form_runs_keep_file_in_sync
    (subs : list (form_input * string * io_outcome)) (st : state) :
  in_sync st -> writes_succeed subs -> in_sync (run_forms subs st).
Proof.
  revert st. induction subs as [|[[inp now] io] subs IH]; intros st Hs Hio.
  - exact Hs.
  - inversion Hio as [|? ? Hhd Htl]; subst. cbn [snd] in Hhd. subst io.
    cbn [run_forms]. apply IH; [now apply form_run_in_sync | exact Htl].
Qed.

Lemma form_runs_keep_file_in_sync_witness :
  in_sync (run_forms [(sample_input "The queue was slow", "2024-03-01 12:00:00", IoOk);
                      (sample_input "   ", "2024-03-01 12:01:00", IoOk);
                      (sample_input "Great food", "2024-03-01 12:05:00", IoOk)]
             fresh_state).
Proof.
  apply form_runs_keep_file_in_sync.
  - reflexivity.
  - repeat constructor.
Defined.

Lemma countdown_bounds (n : nat) (x : Z) :
  In x (countdown n) -> 1 <= x <= Z.of_nat n.
Proof.
  induction n as [|n IH]; [contradiction|].
  cbn [countdown]. intros [<-|H]; [lia|]. specialize (IH H). lia.
Qed.

Lemma countdown_nodup (n : nat) : NoDup (countdown n).
Proof.
  induction n as [|n IH]; [constructor|].
  cbn [countdown]. constructor; [|exact IH].
  intros H. apply countdown_bounds in H. lia.
Qed.

Lemma form_run_ids (inp : form_input) (now : string) (io : io_outcome)
    (st : state) :
  ids_sequential st -> ids_sequential (fst (show_feedback_form inp now io st)).
Proof.
  unfold ids_sequential. rewrite form_run_feedbacks. intros H.
  destruct (PyStr.truthy (PyStr.strip (feedback_text inp))); [|exact H].
  rewrite feedback_entry_fields. cbn [map fb_id List.length countdown].
  rewrite H. f_equal. lia.
Qed.

(** X3: ids stay sequential and unique.  If the ids of the session's list
    count down from its length to 1 (as they do in an empty list), they
    still do after any sequence of form runs -- rejected texts and failed
    saves included --, so no two records share an id. *)
Theorem form_runs_keep_ids_unique
    (subs : list (form_input * string * io_outcome)) (st : state) :
  ids_sequential st ->
  ids_sequential (run_forms subs st)
  /\ NoDup (map fb_id (feedbacks (run_forms subs st))).
Proof.
  intros H.
  assert (Hseq : ids_sequential (run_forms subs st)).
  { revert st H. induction subs as [|[[inp now] io] subs IH]; intros st H.
    - exact H.
    - cbn [run_forms]. apply IH. now apply form_run_ids. }
  split; [exact Hseq|]. rewrite Hseq. apply countdown_nodup.
Qed.

Lemma form_runs_keep_ids_unique_witness :
  map fb_id
    (feedbacks
       (run_forms [(sample_input "The queue was slow", "2024-03-01 12:00:00", IoOpenError);
                   (sample_input "", "2024-03-01 12:01:00", IoOk);
                   (sample_input "Great food", "2024-03-01 12:05:00", IoOk)]
          fresh_state))
  = [2; 1].
Proof.
  destruct (form_runs_keep_ids_unique
              [(sample_input "The queue was slow", "2024-03-01 12:00:00", IoOpenError);
               (sample_input "", "2024-03-01 12:01:00", IoOk);
               (sample_input "Great food", "2024-03-01 12:05:00", IoOk)]
              fresh_state) as [Hseq _]; [reflexivity|].
  rewrite Hseq. reflexivity.
Defined.

(** X4: the form only ever adds at the front.  After any sequence of form
    runs the session's list is the old list with new records in front of
    it, at most one per run, and the company profile is the same: no
    record is changed, moved or removed. *)
Theorem form_runs_only_prepend
    (subs : list (form_input * string * io_outcome)) (st : state) :
  exists newer,
    feedbacks (run_forms subs st) = (newer ++ feedbacks st)%list
    /\ (List.length newer <= List.length subs)%nat
    /\ company_info (run_forms subs st) = company_info st.
Proof.
  revert st. induction subs as [|[[inp now] io] subs IH]; intros st.
  - exists []. repeat split. cbn. lia.
  - cbn [run_forms].
    destruct (IH (fst (show_feedback_form inp now io st)))
      as (newer & Hf & Hlen & Hci).
    rewrite form_run_feedbacks in Hf. rewrite form_run_company_info in Hci.
    destruct (PyStr.truthy (PyStr.strip (feedback_text inp))).
    + exists (newer ++ [feedback_entry st inp now])%list.
      rewrite <- app_assoc. cbn [app]. split; [exact Hf | split; [|exact Hci]].
      rewrite length_app. cbn [List.length]. lia.
    + exists newer. split; [exact Hf | split; [|exact Hci]].
      cbn [List.length]. lia.
Qed.

Lemma classify_nonempty (t ctx : string) : classify t ctx <> "".
Proof.
  unfold classify. generalize (PyStr.lower t) as l. intros l.
  repeat match goal with
         | |- context [?k in_ l] =>
             destruct (k in_ l); cbn [orb];
             try solve [unfold solution_queue, solution_followup;
                        simpl; discriminate]
         end.
Qed.

Lemma len_wrapped (t : string) : PyStr.len (wrapped t) = 67 + PyStr.len t.
Proof.
  unfold PyStr.len, wrapped. rewrite !length_append. cbn [String.length]. lia.
Qed.

Lemma len_nonneg (t : string) : 0 <= PyStr.len t.
Proof. unfold PyStr.len. lia. Qed.

Lemma normalize_is_long (t : string) : 20 <= PyStr.len (normalize t).
Proof.
  unfold normalize. destruct (PyStr.len t <? 20) eqn:E.
  - rewrite len_wrapped. pose proof (len_nonneg t). lia.
  - apply Z.ltb_ge in E. exact E.
Qed.

Lemma entry_populated (st : state) (inp : form_input) (now : string) :
  accepted inp -> populated (feedback_entry st inp now).
Proof.
  intros Hacc. rewrite feedback_entry_fields. unfold populated.
  cbn [fb_original fb_improved fb_solution].
  split; [|split; [apply normalize_is_long | apply classify_nonempty]].
  intros Hempty. unfold accepted in Hacc. rewrite Hempty in Hacc.
  discriminate Hacc.
Qed.

(** X5: every record a form run leaves in the session is filled in: its
    original text is not empty, its improved text is at least 20
    characters long and its solution is not empty -- provided the records
    already there were so. *)
Theorem form_runs_keep_records_populated
    (subs : list (form_input * string * io_outcome)) (st : state) :
  Forall populated (feedbacks st) ->
  Forall populated (feedbacks (run_forms subs st)).
Proof.
  revert st. induction subs as [|[[inp now] io] subs IH]; intros st H.
  - exact H.
  - cbn [run_forms]. apply IH. rewrite form_run_feedbacks.
    destruct (PyStr.truthy (PyStr.strip (feedback_text inp))) eqn:E; [|exact H].
    constructor; [now apply entry_populated | exact H].
Qed.

Lemma form_runs_keep_records_populated_witness :
  Forall populated
    (feedbacks
       (run_forms [(sample_input "ok", "2024-03-01 12:00:00", IoOk);
                   (sample_input "   ", "2024-03-01 12:01:00", IoOk)]
          fresh_state)).
Proof.
  apply form_runs_keep_records_populated. constructor.
Defined.

(** X6: a record whose save failed is written by the next submission that
    succeeds.  After a failed save and then an accepted submission whose
    write succeeds, the file loads as both new records in front of the
    old ones -- the one the user was told had failed included. *)
Theorem failed_record_saved_by_next_submission
    (inp1 inp2 : form_input) (now1 now2 : string) (io : io_outcome)
    (st : state) :
  accepted inp1 -> accepted inp2 -> io <> IoOk ->
  let st1 := fst (show_feedback_form inp1 now1 io st) in
  let st2 := fst (show_feedback_form inp2 now2 IoOk st1) in
  snd (show_feedback_form inp1 now1 io st)
  = SaveRaised (feedback_entry st inp1 now1)
  /\ load_feedbacks (feedback_file st2)
     = Some (feedback_entry st1 inp2 now2
             :: feedback_entry st inp1 now1 :: feedbacks st).
Proof.
  intros H1 H2 Hio. cbv zeta.
  rewrite (form_submits inp2 now2 _ H2). cbn [fst feedback_file].
  rewrite load_document, form_run_feedbacks.
  unfold accepted in H1. rewrite H1.
  split; [|reflexivity].
  rewrite (form_accepts inp1 now1 io st H1). cbv zeta. cbn [snd].
  now rewrite (save_fails io _ _ Hio).
Qed.

Lemma failed_record_saved_by_next_submission_witness :
  option_map (map fb_original)
    (load_feedbacks
       (feedback_file
          (run_forms [(sample_input "The queue was slow", "2024-03-01 12:00:00", IoOpenError);
                      (sample_input "The queue was slow", "2024-03-01 12:00:30", IoOk)]
             fresh_state)))
  = Some ["The queue was slow"; "The queue was slow"].
Proof.
  cbn [run_forms].
  rewrite (proj2 (failed_record_saved_by_next_submission
                    (sample_input "The queue was slow")
                    (sample_input "The queue was slow")
                    "2024-03-01 12:00:00" "2024-03-01 12:00:30"
                    IoOpenError fresh_state
                    eq_refl eq_refl ltac:(discriminate))).
  reflexivity.
Defined.

(** ** Normalizer and classifier *)

(** X7: normalizing twice is normalizing once, the improved text being
    never shorter than 20 characters. *)
Theorem normalize_idempotent (t : string) :
  normalize (normalize t) = normalize t /\ 20 <= PyStr.len (normalize t).
Proof.
  split; [|apply normalize_is_long].
  apply normalize_long, normalize_is_long.
Qed.

Ltac each_ascii c := destruct c as [[] [] [] [] [] [] [] []].

Lemma lower_char_idempotent (c : ascii) :
  PyStr.lower_char (PyStr.lower_char c) = PyStr.lower_char c.
Proof. each_ascii c; reflexivity. Qed.

Lemma lower_idempotent (s : string) : PyStr.lower (PyStr.lower s) = PyStr.lower s.
Proof.
  induction s as [|c s IH]; [reflexivity|].
  cbn [PyStr.lower]. now rewrite lower_char_idempotent, IH.
Qed.

(** X8: the recommendation does not depend on letter case: lower-casing
    the text beforehand changes nothing, and two texts with the same
    lower-case form get the same recommendation. *)
Theorem classify_ignores_case (t1 t2 ctx : string) :
  classify (PyStr.lower t1) ctx = classify t1 ctx
  /\ (PyStr.lower t1 = PyStr.lower t2 -> classify t1 ctx = classify t2 ctx).
Proof.
  split.
  - unfold classify. now rewrite lower_idempotent.
  - intros H. unfold classify. now rewrite H.
Qed.

Lemma classify_ignores_case_witness :
  classify "TOO EXPENSIVE" "" = classify "too Expensive" "".
Proof.
  apply (proj2 (classify_ignores_case "TOO EXPENSIVE" "too Expensive" "")).
  reflexivity.
Defined.

Lemma isspace_lower_char (c : ascii) :
  PyStr.isspace (PyStr.lower_char c) = PyStr.isspace c.
Proof. each_ascii c; reflexivity. Qed.

Lemma lower_lstrip (s : string) :
  PyStr.lower (PyStr.lstrip s) = PyStr.lstrip (PyStr.lower s).
Proof.
  induction s as [|c s IH]; [reflexivity|].
  cbn [PyStr.lstrip PyStr.lower]. rewrite isspace_lower_char.
  destruct (PyStr.isspace c); [exact IH | reflexivity].
Qed.

Lemma lower_rstrip (s : string) :
  PyStr.lower (PyStr.rstrip s) = PyStr.rstrip (PyStr.lower s).
Proof.
  induction s as [|c s IH]; [reflexivity|].
  cbn [PyStr.rstrip PyStr.lower]. rewrite <- IH, isspace_lower_char.
  destruct (PyStr.rstrip s) as [|r rs]; cbn [PyStr.lower].
  - destruct (PyStr.isspace c); reflexivity.
  - reflexivity.
Qed.

Lemma lower_strip (s : string) :
  PyStr.lower (PyStr.strip s) = PyStr.strip (PyStr.lower s).
Proof. unfold PyStr.strip. now rewrite lower_rstrip, lower_lstrip. Qed.

Section KeywordWithoutSpace.

Variable k : string.
Hypothesis k_nonempty : k <> "".
Hypothesis k_no_space : no_space k = true.

Lemma startswith_space (c : ascii) (s : string) :
  PyStr.isspace c = true -> PyStr.startswith k (String c s) = false.
Proof.
  intros Hc. destruct k as [|a k']; [contradiction|].
  cbn [no_space] in k_no_space. apply andb_true_iff in k_no_space as [Ha _].
  cbn [PyStr.startswith]. destruct (Ascii.eqb_spec a c) as [->|]; [|reflexivity].
  rewrite Hc in Ha. discriminate Ha.
Qed.

Lemma contains_empty : k in_ "" = false.
Proof. destruct k; [contradiction | reflexivity]. Qed.

Lemma contains_lstrip (s : string) : k in_ PyStr.lstrip s = k in_ s.
Proof.
  induction s as [|c s IH]; [reflexivity|].
  cbn [PyStr.lstrip]. destruct (PyStr.isspace c) eqn:Hc; [|reflexivity].
  cbn [PyStr.contains]. now rewrite (startswith_space c s Hc), IH.
Qed.

End KeywordWithoutSpace.

Lemma startswith_rstrip (k : string) :
  no_space k = true ->
  forall s, PyStr.startswith k (PyStr.rstrip s) = PyStr.startswith k s.
Proof.
  induction k as [|a k IH]; intros Hk s; [reflexivity|].
  cbn [no_space] in Hk. apply andb_true_iff in Hk as [Ha Hk].
  destruct s as [|c s]; [reflexivity|].
  cbn [PyStr.rstrip]. specialize (IH Hk s).
  destruct (PyStr.rstrip s) as [|r rs] eqn:E.
  - destruct (PyStr.isspace c) eqn:Hc; cbn [PyStr.startswith].
    + destruct (Ascii.eqb_spec a c) as [->|]; [|reflexivity].
      rewrite Hc in Ha. discriminate Ha.
    + now rewrite <- IH.
  - cbn [PyStr.startswith]. now rewrite <- IH.
Qed.

Lemma contains_rstrip (k : string) :
  k <> "" -> no_space k = true ->
  forall s, k in_ PyStr.rstrip s = k in_ s.
Proof.
  intros Hne Hk s. induction s as [|c s IH]; [reflexivity|].
  pose proof (startswith_rstrip k Hk (String c s)) as Hsw.
  cbn [PyStr.rstrip] in Hsw |- *. cbn [PyStr.contains].
  rewrite <- Hsw, <- IH.
  destruct (PyStr.rstrip s) as [|r rs] eqn:E.
  - destruct (PyStr.isspace c).
    + rewrite (contains_empty k Hne Hk). destruct k; [contradiction | reflexivity].
    + reflexivity.
  - reflexivity.
Qed.

Lemma contains_strip (k s : string) :
  k <> "" -> no_space k = true -> k in_ PyStr.strip s = k in_ s.
Proof.
  intros Hne Hk. unfold PyStr.strip.
  now rewrite (contains_rstrip k Hne Hk), (contains_lstrip k Hne Hk).
Qed.

Lemma keyword_in_stripped (k t : string) :
  In k all_keywords ->
  k in_ PyStr.lower (PyStr.strip t) = k in_ PyStr.lower t.
Proof.
  intros Hk. rewrite lower_strip. apply contains_strip.
  - vm_compute in Hk.
    repeat (destruct Hk as [<-|Hk]; [discriminate|]). contradiction.
  - vm_compute in Hk.
    repeat (destruct Hk as [<-|Hk]; [reflexivity|]). contradiction.
Qed.

(** X9: white space around the submitted text does not influence the
    recommendation: the classifier gives the trimmed text and the text as
    typed the same answer (the improved text, in contrast, depends on the
    untrimmed length). *)
Theorem classify_ignores_surrounding_space (t ctx : string) :
  classify (PyStr.strip t) ctx = classify t ctx.
Proof.
  unfold classify.
  rewrite !keyword_in_stripped by (vm_compute; tauto). reflexivity.
Qed.

Lemma startswith_append (k s b : string) :
  PyStr.startswith k s = true -> PyStr.startswith k (s ++ b) = true.
Proof.
  revert s. induction k as [|a k IH]; intros s H; [reflexivity|].
  destruct s as [|c s]; [discriminate H|].
  cbn [PyStr.startswith append] in *.
  apply andb_true_iff in H as [Hac Hk]. now rewrite Hac, (IH s Hk).
Qed.

Lemma contains_empty_keyword (s : string) : "" in_ s = true.
Proof. destruct s; reflexivity. Qed.

Lemma contains_append_r (k t b : string) :
  k in_ t = true -> k in_ (t ++ b) = true.
Proof.
  induction t as [|c t IH]; intros H.
  - destruct k; [apply contains_empty_keyword | discriminate H].
  - cbn [PyStr.contains append] in *. apply orb_true_iff in H as [H|H].
    + pose proof (startswith_append k (String c t) b H) as Hs.
      cbn [append] in Hs. now rewrite Hs.
    + rewrite (IH H). apply orb_true_r.
Qed.

Lemma contains_append_l (k a t : string) :
  k in_ t = true -> k in_ (a ++ t) = true.
Proof.
  intros H. induction a as [|c a IH]; [exact H|].
  cbn [PyStr.contains append]. rewrite IH. apply orb_true_r.
Qed.

Lemma contains_inside (k a t b : string) :
  k in_ PyStr.lower t = true -> k in_ PyStr.lower (a ++ t ++ b) = true.
Proof.
  intros H. rewrite !lower_append.
  now apply contains_append_l, contains_append_r.
Qed.

(** X10: the queue rule looks for its keywords anywhere.  A text that
    contains "slow" or "wait" in any letter case keeps the staffing/queue
    recommendation whatever is written before and after it, word
    boundaries playing no part. *)
Theorem queue_rule_matches_anywhere (a t b ctx : string) :
  "slow" in_ PyStr.lower t = true \/ "wait" in_ PyStr.lower t = true ->
  classify (a ++ t ++ b) ctx = solution_queue ctx.
Proof.
  intros H. unfold classify.
  destruct H as [H|H]; rewrite (contains_inside _ a t b H);
    [reflexivity | now rewrite orb_true_r].
Qed.

Lemma queue_rule_matches_anywhere_witness :
  classify "Clean rooms, but we were aWAITing our food for an hour" ""
  = solution_queue "".
Proof.
  apply (queue_rule_matches_anywhere "Clean rooms, but we were a" "WAIT"
           "ing our food for an hour" "").
  right. reflexivity.
Defined.

(** X11: the company context reaches the recommendation through the queue
    rule and the default only.  When the text has neither "slow" nor
    "wait" and some keyword group matches, the recommendation is the same
    for every company context. *)
Theorem context_ignored_by_middle_rules (t c1 c2 : string) :
  "slow" in_ PyStr.lower t = false ->
  "wait" in_ PyStr.lower t = false ->
  existsb (RuleTable.matches (PyStr.lower t)) RuleTable.rules = true ->
  classify t c1 = classify t c2.
Proof.
  unfold classify. generalize (PyStr.lower t) as l. intros l Hs Hw Hm.
  cbn [existsb RuleTable.rules RuleTable.matches RuleTable.keywords] in Hm.
  rewrite Hs, Hw in Hm |- *. cbn [orb] in Hm |- *.
  repeat match goal with
         | |- context [?k in_ l] =>
             destruct (k in_ l); cbn [orb] in Hm |- *; try reflexivity
         end.
  discriminate Hm.
Qed.

Lemma context_ignored_by_middle_rules_witness :
  classify "The room was dirty" "Company context: A family diner"
  = classify "The room was dirty" "".
Proof.
  apply context_ignored_by_middle_rules; reflexivity.
Defined.

(** ** Company setup *)

Lemma split_on_nonempty (sep : ascii) (s : string) : split_on sep s <> [].
Proof.
  destruct s as [|c s]; cbn [split_on]; [discriminate|].
  destruct (Ascii.eqb c sep); [discriminate|].
  destruct (split_on sep s); discriminate.
Qed.

Lemma split_on_length (sep : ascii) (s : string) :
  List.length (split_on sep s) = S (count_char sep s).
Proof.
  induction s as [|c s IH]; [reflexivity|].
  cbn [split_on count_char]. destruct (Ascii.eqb c sep).
  - cbn [List.length]. now rewrite IH.
  - pose proof (split_on_nonempty sep s) as Hne.
    destruct (split_on sep s) as [|p ps]; [contradiction|].
    cbn [List.length] in *. lia.
Qed.

Lemma split_on_pieces (sep : ascii) (s : string) :
  Forall (fun piece => count_char sep piece = 0%nat) (split_on sep s).
Proof.
  induction s as [|c s IH]; [repeat constructor|].
  cbn [split_on]. destruct (Ascii.eqb c sep) eqn:E.
  - constructor; [reflexivity | exact IH].
  - destruct (split_on sep s) as [|p ps]; [repeat constructor; cbn; now rewrite E|].
    inversion IH as [|? ? Hp Hps]; subst.
    constructor; [cbn [count_char]; now rewrite E, Hp | exact Hps].
Qed.

Lemma join_split (sep : ascii) (s : string) :
  join_with sep (split_on sep s) = s.
Proof.
  induction s as [|c s IH]; [reflexivity|].
  cbn [split_on]. destruct (Ascii.eqb_spec c sep) as [->|Hne].
  - pose proof (split_on_nonempty sep s) as Hn.
    destruct (split_on sep s) as [|p ps]; [contradiction|].
    cbn [join_with append] in *. now rewrite IH.
  - pose proof (split_on_nonempty sep s) as Hn.
    destruct (split_on sep s) as [|p ps]; [contradiction|].
    destruct ps; cbn [join_with append] in *; now rewrite IH.
Qed.

Lemma lstrip_tight (s : string) : starts_tight (PyStr.lstrip s) = true.
Proof.
  induction s as [|c s IH]; [reflexivity|].
  cbn [PyStr.lstrip]. destruct (PyStr.isspace c) eqn:E; [exact IH|].
  cbn [starts_tight]. now rewrite E.
Qed.

Lemma lstrip_of_tight (s : string) : starts_tight s = true -> PyStr.lstrip s = s.
Proof.
  destruct s as [|c s]; [reflexivity|]. cbn [starts_tight PyStr.lstrip].
  intros H. apply negb_true_iff in H. now rewrite H.
Qed.

Lemma rstrip_tight (s : string) :
  starts_tight s = true -> starts_tight (PyStr.rstrip s) = true.
Proof.
  destruct s as [|c s]; [reflexivity|]. cbn [starts_tight PyStr.rstrip].
  intros H. destruct (PyStr.rstrip s).
  - apply negb_true_iff in H. rewrite H. cbn [starts_tight].
    now rewrite H.
  - exact H.
Qed.

Lemma rstrip_idempotent (s : string) :
  PyStr.rstrip (PyStr.rstrip s) = PyStr.rstrip s.
Proof.
  induction s as [|c s IH]; [reflexivity|].
  cbn [PyStr.rstrip]. destruct (PyStr.rstrip s) as [|r rs] eqn:E.
  - destruct (PyStr.isspace c) eqn:Hc; [reflexivity|].
    cbn [PyStr.rstrip]. now rewrite Hc.
  - cbn [PyStr.rstrip] in IH |- *. now rewrite IH.
Qed.

Lemma strip_idempotent (s : string) : PyStr.strip (PyStr.strip s) = PyStr.strip s.
Proof.
  unfold PyStr.strip.
  rewrite (lstrip_of_tight (PyStr.rstrip (PyStr.lstrip s)))
    by apply rstrip_tight, lstrip_tight.
  apply rstrip_idempotent.
Qed.

Lemma count_char_lstrip (d : ascii) (s : string) :
  (count_char d (PyStr.lstrip s) <= count_char d s)%nat.
Proof.
  induction s as [|c s IH]; [reflexivity|].
  cbn [PyStr.lstrip]. destruct (PyStr.isspace c); [|reflexivity].
  cbn [count_char]. lia.
Qed.

Lemma count_char_rstrip (d : ascii) (s : string) :
  (count_char d (PyStr.rstrip s) <= count_char d s)%nat.
Proof.
  induction s as [|c s IH]; [reflexivity|].
  cbn [PyStr.rstrip]. destruct (PyStr.rstrip s) as [|r rs].
  - destruct (PyStr.isspace c); cbn [count_char] in *; lia.
  - cbn [count_char] in *. lia.
Qed.

Lemma count_char_strip (d : ascii) (s : string) :
  (count_char d (PyStr.strip s) <= count_char d s)%nat.
Proof.
  unfold PyStr.strip.
  pose proof (count_char_rstrip d (PyStr.lstrip s)).
  pose proof (count_char_lstrip d s). lia.
Qed.

(** X12: the categories configured from the comma-separated text.  There
    is one category more than the text has commas -- so never none: the
    empty text gives one empty category --, and every category is trimmed
    and free of commas. *)
Theorem configured_categories (f : setup_form) (now : string) :
  let cats := cp_categories (company_info_of f now) in
  List.length cats = S (count_char "," (custom_categories f))
  /\ Forall (fun c => PyStr.strip c = c /\ count_char "," c = 0%nat) cats.
Proof.
  cbn [cp_categories company_info_of]. split.
  - now rewrite length_map, split_on_length.
  - apply Forall_map.
    eapply Forall_impl; [|apply (split_on_pieces "," (custom_categories f))].
    intros piece Hp. cbn beta in Hp |- *. split; [apply strip_idempotent|].
    pose proof (count_char_strip "," piece). lia.
Qed.




(** X14: the setup form touches the profile only, and the last accepted
    setup wins.  Whatever is typed, the records and the file stay as they
    are; a setup with an empty name or description is rejected and leaves
    the whole state, an earlier profile included, untouched; and an
    accepted setup gives the same state whether or not another setup came
    before it. *)
Theorem setup_replaces_profile_only (f1 f2 : setup_form) (now1 now2 : string)
    (st : state) :
  feedbacks (fst (company_setup f1 now1 st)) = feedbacks st
  /\ feedback_file (fst (company_setup f1 now1 st)) = feedback_file st
  /\ (company_name f1 = "" \/ company_description f1 = "" ->
      company_setup f1 now1 st = (st, SetupRejected))
  /\ (company_name f2 <> "" -> company_description f2 <> "" ->
      company_setup f2 now2 (fst (company_setup f1 now1 st))
      = company_setup f2 now2 st).
Proof.
  unfold company_setup.
  destruct (company_name f1) as [|a1 n1], (company_description f1) as [|b1 d1];
    cbn [PyStr.truthy andb fst feedbacks feedback_file];
    (split; [reflexivity | split; [reflexivity | split]]);
    try reflexivity; try (intros [H|H]; discriminate H);
    (intros Hn Hd;
     destruct (company_name f2); [contradiction|];
     destruct (company_description f2); [contradiction | reflexivity]).
Qed.

Lemma setup_replaces_profile_only_witness :
  company_setup {| company_name := ""; company_type := "Hotel";
                   company_description := "A hotel"; focus_areas := [];
                   custom_categories := "Rooms"; enable_rating := true |}
    "2024-03-02 09:00:00" diner_state
  = (diner_state, SetupRejected)
  /\ company_setup diner_form "2024-03-01 09:00:00"
       (fst (company_setup diner_form "2024-02-01 09:00:00" fresh_state))
     = company_setup diner_form "2024-03-01 09:00:00" fresh_state.
Proof.
  split.
  - apply (setup_replaces_profile_only
             {| company_name := ""; company_type := "Hotel";
                company_description := "A hotel"; focus_areas := [];
                custom_categories := "Rooms"; enable_rating := true |}
             diner_form "2024-03-02 09:00:00" "2024-03-01 09:00:00" diner_state).
    left. reflexivity.
  - apply (setup_replaces_profile_only diner_form diner_form
             "2024-02-01 09:00:00" "2024-03-01 09:00:00" fresh_state);
      discriminate.
Defined.

(** ** Dashboard figures *)

(** X15: the figure labelled "Recent (24h)" is the number of all records:
    no timestamp is looked at, so it always equals "Total Feedback". *)
Theorem recent_counts_everything (fbs : list feedback) :
  recent_24h fbs = total_feedbacks fbs.
Proof. unfold recent_24h, total_feedbacks. apply py_sum_ones. Qed.

(** X16: when the average is printed and what it can be.  The dashboard
    prints an average (rather than "N/A") only when some record has a
    rating above 0; and if every rating lies in 0..5 and some record has a
    rating above 0, the average is printed and is a double between 1 and
    5. *)
Theorem average_printed_and_bounded (fbs : list feedback) :
  (average_printed fbs = true -> rated fbs <> [])
  /\ (Forall rating_in_range fbs -> rated fbs <> [] ->
      average_printed fbs = true
      /\ exists q, avg_rating fbs = Quotient q /\ (1 <= q)%Q /\ (q <= 5 # 1)%Q).
Proof.
  split.
  - intros Hp Hnil. unfold average_printed in Hp.
    rewrite (avg_rating_unrated_only fbs Hnil) in Hp. discriminate Hp.
  - intros Hr Hne.
    destruct (avg_rating_in_range fbs Hr) as [[Hnil _]|(_ & q & Hq & Hlo & Hhi)];
      [contradiction|].
    split; [|eauto]. unfold average_printed. rewrite Hq.
    apply negb_true_iff. destruct (Qle_bool q 0) eqn:E; [|reflexivity].
    apply Qle_bool_iff in E. unfold Qle in *. cbn [Qnum Qden] in *. lia.
Qed.

Lemma average_printed_and_bounded_witness :
  average_printed
    [{| fb_id := 2; fb_company := "Our Company";
        fb_category := "General"; fb_rating := 0;
        fb_original := "ok"; fb_improved := "ok";
        fb_solution := "none"; fb_timestamp := "t2" |};
     hand_written_record] = true.
Proof.
  apply (average_printed_and_bounded
           [{| fb_id := 2; fb_company := "Our Company";
               fb_category := "General"; fb_rating := 0;
               fb_original := "ok"; fb_improved := "ok";
               fb_solution := "none"; fb_timestamp := "t2" |};
            hand_written_record]).
  - repeat constructor; unfold rating_in_range; simpl; lia.
  - discriminate.
Defined.

Lemma indicator_sum_out (x : string) (cats : list string) :
  ~ In x cats ->
  list_sum (map (fun c => if String.eqb x c then 1%nat else 0%nat) cats) = 0%nat.
Proof.
  induction cats as [|c cats IH]; intros Hx; [reflexivity|].
  cbn [map list_sum fold_right].
  destruct (String.eqb_spec x c) as [->|_].
  - exfalso. apply Hx. now left.
  - apply IH. intros H. apply Hx. now right.
Qed.

Lemma indicator_sum_in (x : string) (cats : list string) :
  NoDup cats -> In x cats ->
  list_sum (map (fun c => if String.eqb x c then 1%nat else 0%nat) cats) = 1%nat.
Proof.
  induction 1 as [|c cats Hc Hnd IH]; intros Hx; [contradiction|].
  cbn [map list_sum fold_right].
  destruct (String.eqb_spec x c) as [->|Hne].
  - fold (list_sum (map (fun c0 => if String.eqb c c0 then 1%nat else 0%nat) cats)).
    now rewrite (indicator_sum_out c cats Hc).
  - destruct Hx as [->|Hx]; [contradiction|].
    fold (list_sum (map (fun c0 => if String.eqb x c0 then 1%nat else 0%nat) cats)).
    now rewrite (IH Hx).
Qed.

Lemma list_sum_map_add {A} (f g : A -> nat) (l : list A) :
  list_sum (map (fun x => (f x + g x)%nat) l)
  = (list_sum (map f l) + list_sum (map g l))%nat.
Proof.
  induction l as [|x l IH]; [reflexivity|].
  cbn [map list_sum fold_right] in *. fold (list_sum (map f l)).
  fold (list_sum (map g l)).
  fold (list_sum (map (fun x0 => (f x0 + g x0)%nat) l)). lia.
Qed.

Lemma list_sum_map_zero {A} (l : list A) :
  list_sum (map (fun _ => 0%nat) l) = 0%nat.
Proof. induction l as [|x l IH]; [reflexivity | exact IH]. Qed.

Lemma filtered_by_category (c : string) (fbs : list feedback) :
  c <> "All" ->
  filtered_feedbacks c fbs
  = filter (fun f => String.eqb (fb_category f) c) fbs.
Proof.
  intros H. unfold filtered_feedbacks.
  destruct (String.eqb_spec c "All"); [contradiction | reflexivity].
Qed.

(** X17: the category filter of the dashboard splits the records.  For a
    list of distinct category names that contains the category of every
    record and not the name "All", the numbers of records shown under the
    single categories add up to the number of all records: each record is
    shown under exactly one category. *)
Theorem category_filter_partitions (fbs : list feedback) (cats : list string) :
  NoDup cats ->
  (forall f, In f fbs -> In (fb_category f) cats) ->
  ~ In "All" cats ->
  list_sum (map (fun c => List.length (filtered_feedbacks c fbs)) cats)
  = List.length fbs.
Proof.
  intros Hnd Hcats Hall.
  rewrite (map_ext_in _
             (fun c => List.length
                         (filter (fun f => String.eqb (fb_category f) c) fbs))).
  2:{ intros c Hc. rewrite filtered_by_category; [reflexivity|].
      intros ->. contradiction. }
  clear Hall. induction fbs as [|f fbs IH].
  - cbn [filter List.length]. apply list_sum_map_zero.
  - rewrite (map_ext _
               (fun c => ((if String.eqb (fb_category f) c then 1 else 0)
                          + List.length
                              (filter (fun g => String.eqb (fb_category g) c)
                                 fbs))%nat)).
    2:{ intros c. cbn [filter].
        destruct (String.eqb (fb_category f) c); reflexivity. }
    rewrite list_sum_map_add, indicator_sum_in, IH.
    + reflexivity.
    + intros g Hg. apply Hcats. now right.
    + exact Hnd.
    + apply Hcats. now left.
Qed.

Lemma category_filter_partitions_witness :
  (List.length
     (filtered_feedbacks "General"
        [hand_written_record;
         feedback_entry diner_state
           {| category := "Service"; slider := 1; feedback_text := "slow" |}
           "2024-03-01 12:00:00"])
   + (List.length
        (filtered_feedbacks "Service"
           [hand_written_record;
            feedback_entry diner_state
              {| category := "Service"; slider := 1; feedback_text := "slow" |}
              "2024-03-01 12:00:00"])
      + 0))%nat
  = 2%nat.
Proof.
  apply (category_filter_partitions
           [hand_written_record;
            feedback_entry diner_state
              {| category := "Service"; slider := 1; feedback_text := "slow" |}
              "2024-03-01 12:00:00"]
           ["General"; "Service"]).
  - repeat constructor; simpl; intuition discriminate.
  - intros f [<-|[<-|[]]]; simpl; tauto.
  - simpl. intuition discriminate.
Defined.

(** ** Start-up, pages and navigation *)

Lemma startup_fixed (st a : state) : startup st = Some a -> startup a = Some a.
Proof.
  unfold startup. destruct (feedbacks st) as [|f fs] eqn:E.
  - destruct (load_feedbacks (feedback_file st)) as [fbs|] eqn:L;
      [|discriminate].
    intros H. injection H as <-. cbn [feedbacks feedback_file company_info].
    destruct fbs; [now rewrite L | reflexivity].
  - intros H. injection H as <-. now rewrite E.
Qed.

(** X18: the start-up lines load at most once.  A session that already
    holds records is left alone whatever the file holds -- the file is not
    even read --, and running the start-up lines again after they have
    succeeded changes nothing. *)
Theorem startup_loads_once (st a : state) :
  (feedbacks st <> [] -> startup st = Some st)
  /\ (startup st = Some a -> startup a = Some a).
Proof. split; [apply startup_nonempty | apply startup_fixed]. Qed.

Lemma startup_loads_once_witness :
  startup {| feedbacks := [hand_written_record]; company_info := None;
             feedback_file := Some "not a JSON document" |}
  = Some {| feedbacks := [hand_written_record]; company_info := None;
            feedback_file := Some "not a JSON document" |}.
Proof.
  apply (proj1 (startup_loads_once
                  {| feedbacks := [hand_written_record]; company_info := None;
                     feedback_file := Some "not a JSON document" |}
                  fresh_state)).
  discriminate.
Defined.

Lemma with_app_same (s : session) : with_app (app s) s = s.
Proof. now destruct s. Qed.

Ltac walk_goal :=
  repeat match goal with
         | |- context [if ?b then _ else _] => destruct b eqn:?
         | |- context [match ?x with _ => _ end] => destruct x eqn:?
         end.


Lemma main_none_settled (s : session) :
  known_page (page s) -> (page s = "dashboard" -> is_logged_in s = true) ->
  settled (main None s).
Proof.
  intros Hk Hd. unfold main, show_home, show_setup, feedback_page, show_login,
    show_dashboard.
  repeat match goal with
         | |- context [String.eqb (page s) ?p] =>
             destruct (String.eqb_spec (page s) p)
         end; try exact I.
  rewrite Hd by assumption. cbn [negb]. walk_goal; exact I.
Qed.

Lemma script_none_settled (s : session) :
  at_rest s -> settled (script None s).
Proof.
  intros (Hst & Hk & Hd). unfold script. rewrite Hst, with_app_same.
  now apply main_none_settled.
Qed.

Lemma settle_settled (fuel : nat) (r : run_result) :
  settled r -> settle fuel r = r.
Proof. destruct r, fuel; cbn; intros H; (reflexivity || contradiction). Qed.

Lemma main_rerun_at_rest (ev : option event) (s s2 : session) :
  startup (app s) = Some (app s) ->
  main ev s = Rerun s2 -> at_rest s2.
Proof.
  intros Hst H. unfold at_rest, known_page.
  unfold main, show_home, show_setup, feedback_page, show_login,
    show_dashboard, navigate_to in H.
  destruct ev as [[]|];
    repeat match type of H with
           | context [String.eqb (page s) ?p] =>
               destruct (String.eqb_spec (page s) p)
           | context [if ?b then _ else _] => destruct b eqn:?
           | context [match ?x with _ => _ end] => destruct x eqn:?
           end;
    try discriminate H; injection H as <-;
    cbn [app page logged_in with_logged_in is_logged_in In];
    repeat match goal with
           | E : page s = _ |- _ => rewrite E in *; clear E
           end;
    (split; [exact Hst | split; [tauto | try discriminate; try reflexivity]]);
    try (intros _; assumption); try congruence.
Qed.

Lemma settle_at_rest (fuel : nat) (s : session) :
  at_rest s -> settled (settle (S fuel) (Rerun s)).
Proof.
  intros H. cbn [settle]. pose proof (script_none_settled s H) as Hs.
  now rewrite (settle_settled fuel _ Hs).
Qed.

(** X19: every interaction comes to rest.  Whatever the user does in
    whatever session, the run it starts and at most two reruns end with a
    page drawn or with an exception: the redirects of [navigate_to] never
    chase each other. *)
Theorem interact_settles (ev : event) (s : session) :
  settled (interact ev s).
Proof.
  unfold interact, script.
  destruct (startup (app s)) as [a|] eqn:Hst; [|exact I].
  pose proof (startup_fixed _ _ Hst) as Ha.
  destruct (main (Some ev) (with_app a s)) as [s2|s2 v|s2] eqn:Hm;
    [|exact I|exact I].
  apply settle_at_rest.
  now apply (main_rerun_at_rest (Some ev) (with_app a s) s2).
Qed.

Lemma main_logs_nobody_in (ev : option event) (s : session) :
  is_admin_login ev = false -> logs_nobody_in (main ev s) s.
Proof.
  unfold logs_nobody_in, is_admin_login. intros Hev.
  unfold main, show_home, show_setup, feedback_page, show_login,
    show_dashboard, navigate_to.
  destruct ev as [[]|];
    try rewrite Hev;
    repeat match goal with
           | |- context [if ?b then _ else _] => destruct b eqn:?
           | |- context [match ?x with _ => _ end] => destruct x eqn:?
           end;
    cbn [session_of is_logged_in logged_in with_app with_logged_in];
    try discriminate; auto.
Qed.

Lemma script_logs_nobody_in (ev : option event) (s : session) :
  is_admin_login ev = false -> logs_nobody_in (script ev s) s.
Proof.
  intros Hev. unfold script. destruct (startup (app s)) as [a|].
  - intros H. now apply (main_logs_nobody_in ev (with_app a s) Hev) in H.
  - intros H. exact H.
Qed.

Lemma settle_logs_nobody_in (fuel : nat) :
  forall r s, logs_nobody_in r s -> logs_nobody_in (settle fuel r) s.
Proof.
  induction fuel as [|fuel IH]; intros r s H.
  - destruct r; exact H.
  - destruct r as [s1| |]; try exact H.
    cbn [settle]. intros Hin. apply H. cbn [session_of].
    apply (IH (script None s1) s1); [|exact Hin].
    now apply script_logs_nobody_in.
Qed.

Lemma admin_login_event (ev : event) :
  is_admin_login (Some ev) = true -> ev = LoginSubmit "admin" "admin123".
Proof.
  destruct ev; try discriminate. cbn [is_admin_login]. intros H.
  apply andb_true_iff in H as [Hu Hp].
  apply String.eqb_eq in Hu, Hp. now subst.
Qed.

Lemma interact_logs_in (ev : event) (s : session) :
  is_logged_in (session_of (interact ev s)) = true ->
  is_logged_in s = true \/ ev = LoginSubmit "admin" "admin123".
Proof.
  intros H. destruct (is_admin_login (Some ev)) eqn:E.
  - right. now apply admin_login_event.
  - left. revert H. apply settle_logs_nobody_in.
    now apply script_logs_nobody_in.
Qed.

Lemma run_events_logs_in (evs : list event) :
  forall s,
    is_logged_in (run_events evs s) = true ->
    is_logged_in s = true \/ In (LoginSubmit "admin" "admin123") evs.
Proof.
  induction evs as [|ev evs IH]; intros s H; [now left|].
  cbn [run_events] in H. destruct (IH _ H) as [Hs|Hin].
  - destruct (interact_logs_in ev s Hs) as [Hl| ->]; [now left|].
    right. now left.
  - right. now right.
Qed.

Lemma main_dashboard_shown (ev : option event) (s s' : session) :
  main ev s = Shown s' DashboardScreen -> is_logged_in s' = true.
Proof.
  unfold main, show_home, show_setup, feedback_page, show_login,
    show_dashboard, navigate_to. intros H.
  destruct ev as [[]|];
    repeat match type of H with
           | context [if ?b then _ else _] => destruct b eqn:?
           | context [match ?x with _ => _ end] => destruct x eqn:?
           end;
    try discriminate H; injection H as <-;
    match goal with
    | E : negb (is_logged_in _) = false |- _ =>
        apply negb_false_iff in E; exact E
    end.
Qed.

Lemma script_dashboard_shown (ev : option event) (s s' : session) :
  script ev s = Shown s' DashboardScreen -> is_logged_in s' = true.
Proof.
  unfold script. destruct (startup (app s)); [|discriminate].
  apply main_dashboard_shown.
Qed.

Lemma settle_dashboard_shown (fuel : nat) :
  forall r s',
    (r = Shown s' DashboardScreen -> is_logged_in s' = true) ->
    settle fuel r = Shown s' DashboardScreen -> is_logged_in s' = true.
Proof.
  induction fuel as [|fuel IH]; intros r s' Hr H.
  - destruct r; try discriminate H; now apply Hr.
  - destruct r as [s1| |]; try (now apply Hr).
    cbn [settle] in H. revert H. apply IH. apply script_dashboard_shown.
Qed.

(** X20: the dashboard is drawn for a logged-in session only, and the
    login form with user "admin" and password "admin123" is the only way
    in.  Starting from a session that is not logged in (a new one, or one
    after a logout), if an interaction ends with the dashboard drawn, then
    the session is logged in and that login form was sent at some point of
    the interactions so far. *)
Theorem dashboard_needs_admin_login (evs : list event) (ev : event)
    (s s' : session) :
  is_logged_in s = false ->
  interact ev (run_events evs s) = Shown s' DashboardScreen ->
  is_logged_in s' = true
  /\ In (LoginSubmit "admin" "admin123") (evs ++ [ev]).
Proof.
  intros Hout Hshown.
  assert (Hin : is_logged_in s' = true).
  { revert Hshown. unfold interact. apply settle_dashboard_shown.
    apply script_dashboard_shown. }
  split; [exact Hin|]. apply in_or_app.
  assert (Hs' : s' = session_of (interact ev (run_events evs s)))
    by now rewrite Hshown.
  rewrite Hs' in Hin.
  destruct (interact_logs_in _ _ Hin) as [Hbefore| ->].
  - left. destruct (run_events_logs_in evs s Hbefore) as [Hs|H]; [|exact H].
    rewrite Hs in Hout. discriminate Hout.
  - right. now left.
Qed.

Lemma dashboard_needs_admin_login_witness :
  exists s',
    interact (LoginSubmit "admin" "admin123")
      (run_events [HomeStaffDashboard] (initial_session None))
    = Shown s' DashboardScreen
    /\ is_logged_in s' = true.
Proof.
  eexists. split; [reflexivity|].
  apply (dashboard_needs_admin_login [HomeStaffDashboard]
           (LoginSubmit "admin" "admin123") (initial_session None));
    reflexivity.
Defined.

Lemma main_page (ev : option event) (s : session) :
  known_page (page s) -> known_page (page (session_of (main ev s))).
Proof.
  intros Hk. unfold main, show_home, show_setup, feedback_page, show_login,
    show_dashboard, navigate_to.
  destruct ev as [[]|];
    repeat match goal with
           | |- context [if ?b then _ else _] => destruct b eqn:?
           | |- context [match ?x with _ => _ end] => destruct x eqn:?
           end;
    cbn [session_of page with_app with_logged_in];
    try exact Hk; unfold known_page; cbn [In]; tauto.
Qed.

Lemma script_page (ev : option event) (s : session) :
  known_page (page s) -> known_page (page (session_of (script ev s))).
Proof.
  intros Hk. unfold script. destruct (startup (app s)) as [a|]; [|exact Hk].
  now apply (main_page ev (with_app a s)).
Qed.

Lemma settle_page (fuel : nat) :
  forall r, known_page (page (session_of r)) ->
            known_page (page (session_of (settle fuel r))).
Proof.
  induction fuel as [|fuel IH]; intros r H; [destruct r; exact H|].
  destruct r as [s1| |]; try exact H.
  cbn [settle]. apply IH. now apply script_page.
Qed.

Lemma interact_page (ev : event) (s : session) :
  known_page (page s) -> known_page (page (session_of (interact ev s))).
Proof. intros H. unfold interact. now apply settle_page, script_page. Qed.

Lemma main_no_screen (ev : option event) (s s' : session) :
  main ev s = Shown s' NoScreen -> ~ known_page (page s').
Proof.
  unfold main, show_home, show_setup, feedback_page, show_login,
    show_dashboard, navigate_to. intros H.
  destruct ev as [[]|];
    repeat match type of H with
           | context [String.eqb (page s) ?p] =>
               destruct (String.eqb_spec (page s) p)
           | context [if ?b then _ else _] => destruct b eqn:?
           | context [match ?x with _ => _ end] => destruct x eqn:?
           end;
    try discriminate H; injection H as <-;
    unfold known_page; cbn [In page with_app]; intuition congruence.
Qed.

Lemma settle_no_screen (fuel : nat) :
  forall r s',
    (r = Shown s' NoScreen -> ~ known_page (page s')) ->
    settle fuel r = Shown s' NoScreen -> ~ known_page (page s').
Proof.
  induction fuel as [|fuel IH]; intros r s' Hr H.
  - destruct r; try discriminate H; now apply Hr.
  - destruct r as [s1| |]; try (now apply Hr).
    cbn [settle] in H. revert H. apply IH.
    unfold script. destruct (startup (app s1)); [|discriminate].
    apply main_no_screen.
Qed.

(** X21: [main] always finds the page.  Along any interactions from a new
    session the page key holds one of the five page names, so no run ends
    with nothing drawn for want of a matching page. *)
Theorem page_always_known (evs : list event) (file : option string)
    (ev : event) (s' : session) :
  known_page (page (run_events evs (initial_session file)))
  /\ interact ev (run_events evs (initial_session file)) <> Shown s' NoScreen.
Proof.
  assert (Hk : forall s, known_page (page s) ->
                         known_page (page (run_events evs s))).
  { induction evs as [|e evs IH]; intros s H; [exact H|].
    cbn [run_events]. apply IH. now apply interact_page. }
  assert (H0 : known_page (page (initial_session file)))
    by (unfold known_page; cbn; tauto).
  split; [now apply Hk|].
  intros Hshown.
  pose proof (interact_page ev _ (Hk _ H0)) as Hafter.
  rewrite Hshown in Hafter. cbn [session_of] in Hafter.
  revert Hafter. revert Hshown. unfold interact.
  apply settle_no_screen.
  unfold script. destruct (startup _); [|discriminate].
  apply main_no_screen.
Qed.






(** What a property of the pipeline's state needs to hold along the
    interactions whose events are [ok]. *)
Section Kept.

Variable P : state -> Prop.
Variable ok : event -> Prop.
Hypothesis P_startup : forall st a, P st -> startup st = Some a -> a = st.
Hypothesis P_setup :
  forall f now st, P st -> P (fst (company_setup f now st)).
Hypothesis P_form :
  forall inp now io st,
    ok (FeedbackSubmit inp now io) -> P st ->
    P (fst (show_feedback_form inp now io st)).






End Kept.

















(** ** A document cut short cannot be read *)

Module JsonCut.
Import Json JsonFacts.

Ltac mono_walk H f g Hg IHo IHi IHm :=
  repeat match type of H with
         | context [scan_once f ?a] =>
             let E := fresh "E" in
             destruct (scan_once f a) as [[? ?]|] eqn:E;
             [apply IHo in E; rewrite E | discriminate H]
         | context [scan_items f ?a] =>
             let E := fresh "E" in
             destruct (scan_items f a) as [[? ?]|] eqn:E;
             [apply IHi in E; rewrite E | discriminate H]
         | context [scan_members f ?a] =>
             let E := fresh "E" in
             destruct (scan_members f a) as [[? ?]|] eqn:E;
             [apply IHm in E; rewrite E | discriminate H]
         | context [if ?b then _ else _] => destruct b eqn:?
         | context [match ?x with _ => _ end] => destruct x eqn:?
         end; try discriminate H; try exact H.

Lemma scan_mono_step (f : nat) :
  (forall s r, scan_once f s = Some r -> scan_once (S f) s = Some r)
  /\ (forall s r, scan_items f s = Some r -> scan_items (S f) s = Some r)
  /\ (forall s r, scan_members f s = Some r -> scan_members (S f) s = Some r).
Proof.
  induction f as [|f (IHo & IHi & IHm)]; [repeat split; intros; discriminate|].
  repeat split; intros s r H.
  - destruct s as [|c s1]; [discriminate H|].
    cbn -[skip_ws strip_prefix scan_number scan_string] in H.
    remember (S f) as g eqn:Hg.
    cbn -[skip_ws strip_prefix scan_number scan_string].
    mono_walk H f g Hg IHo IHi IHm.
  - cbn -[skip_ws] in H.
    remember (S f) as g eqn:Hg.
    cbn -[skip_ws].
    mono_walk H f g Hg IHo IHi IHm.
  - destruct s as [|q s0]; [discriminate H|].
    cbn -[skip_ws scan_string] in H.
    remember (S f) as g eqn:Hg.
    cbn -[skip_ws scan_string].
    mono_walk H f g Hg IHo IHi IHm.
Qed.

Lemma scan_once_mono (f f' : nat) (s : string) (r : value * string) :
  (f <= f')%nat -> scan_once f s = Some r -> scan_once f' s = Some r.
Proof.
  induction 1 as [|f' _ IH]; intros H; [exact H|].
  now apply scan_mono_step, IH.
Qed.


Lemma append_split (a b p q : string) :
  a ++ b = p ++ q ->
  (exists r, a = p ++ r /\ q = r ++ b)
  \/ (exists r, r <> "" /\ p = a ++ r /\ b = r ++ q).
Proof.
  revert p. induction a as [|c a IH]; intros p H.
  - destruct p as [|d p]; [left; exists ""; split; [reflexivity | exact (eq_sym H)]|].
    right. exists (String d p). repeat split; [discriminate | exact H].
  - destruct p as [|d p]; [left; exists (String c a); split; [reflexivity | exact (eq_sym H)]|].
    cbn [append] in H. injection H as -> H.
    destruct (IH p H) as [(r & -> & ->)|(r & Hr & -> & ->)].
    + left. exists r. split; reflexivity.
    + right. exists r. repeat split; assumption.
Qed.

Lemma cut_short_nonempty (p full : string) :
  cut_short p full -> full <> "".
Proof.
  intros (q & Hq & ->) H. destruct p; [contradiction|discriminate H].
Qed.

Lemma cut_short_cons (c : ascii) (full p : string) :
  cut_short p (String c full) ->
  p = "" \/ exists p', p = String c p' /\ cut_short p' full.
Proof.
  intros (q & Hq & H). destruct p as [|d p]; [now left|].
  right. cbn [append] in H. injection H as <- ->.
  exists p. split; [reflexivity|]. now exists q.
Qed.

(** A cut of [a ++ b] ends within [a] or goes on into [b]. *)
Lemma cut_short_append (a b p : string) :
  cut_short p (a ++ b) ->
  (exists r, a = p ++ r)
  \/ (exists r, r <> "" /\ p = a ++ r /\ cut_short r b).
Proof.
  intros (q & Hq & H). destruct (append_split a b p q H) as [(r & Ha & _)|(r & Hr & Hp & Hb)].
  - left. now exists r.
  - right. exists r. repeat split; try assumption. now exists q.
Qed.

Lemma all_ws_prefix (p r : string) : all_ws (p ++ r) = true -> all_ws p = true.
Proof.
  induction p as [|c p IH]; [reflexivity|]. cbn [append all_ws].
  intros H. apply andb_true_iff in H as [Hc H]. now rewrite Hc, IH.
Qed.

Lemma all_ws_skip (p : string) : all_ws p = true -> skip_ws p = "".
Proof.
  induction p as [|c p IH]; [reflexivity|]. cbn [all_ws skip_ws].
  intros H. apply andb_true_iff in H as [Hc H]. now rewrite Hc, IH.
Qed.

Lemma all_ws_newline_indent (n : nat) : all_ws (newline_indent n) = true.
Proof.
  unfold newline_indent. cbn [all_ws]. cbn.
  induction n as [|n IH]; [reflexivity | exact IH].
Qed.

(** A cut of an indented body ends in the indentation or in the body. *)
Lemma cut_after_indent (n : nat) (body p : string) :
  cut_short p (newline_indent n ++ body) ->
  skip_ws p = ""
  \/ (exists r, r <> "" /\ skip_ws p = skip_ws r /\ cut_short r body).
Proof.
  intros H. destruct (cut_short_append _ _ _ H) as [(r & Hr)|(r & Hr & -> & Hc)].
  - left. apply all_ws_skip, (all_ws_prefix p r). rewrite <- Hr.
    apply all_ws_newline_indent.
  - right. exists r. repeat split; try assumption.
    apply skip_ws_newline_indent.
Qed.

Lemma cut_of_closing (lvl : nat) (cl : ascii) (p : string) :
  cut_short p (closing lvl cl "") -> skip_ws p = "".
Proof.
  unfold closing. intros H.
  destruct (cut_after_indent _ _ _ H) as [Hs|(r & Hr & Hs & Hc)]; [exact Hs|].
  exfalso. destruct Hc as (q & Hq & Hc).
  destruct r as [|c r]; [contradiction|]. cbn [append] in Hc.
  injection Hc as _ Hc. destruct r; [|discriminate Hc].
  cbn in Hc. now subst q.
Qed.

(** A non-empty cut of text that starts with a value starts like one. *)
Lemma cut_of_value_head (lvl : nat) (v : value) (tail p : string) :
  p <> "" -> cut_short p (encode lvl v ++ tail) ->
  exists c p', p = String c p' /\ value_start c = true.
Proof.
  intros Hp (q & _ & H). destruct (encode_head lvl v) as (c & t & E & Hc).
  rewrite E in H. destruct p as [|d p]; [contradiction|].
  cbn [append] in H. injection H as <- _. eauto.
Qed.

Lemma skip_ws_value_head (c : ascii) (p : string) :
  value_start c = true -> skip_ws (String c p) = String c p.
Proof.
  intros H. destruct (value_start_facts c H) as (Hw & _). cbn [skip_ws].
  now rewrite Hw.
Qed.

Lemma scan_once_empty (fuel : nat) : scan_once fuel "" = None.
Proof. destruct fuel; reflexivity. Qed.

Lemma scan_items_empty (fuel : nat) : scan_items fuel "" = None.
Proof. destruct fuel as [|f]; [reflexivity|]. cbn. now rewrite scan_once_empty. Qed.

Lemma scan_members_empty (fuel : nat) : scan_members fuel "" = None.
Proof. destruct fuel; reflexivity. Qed.

Ltac each_char8 c := destruct c as [[] [] [] [] [] [] [] []].

(** Every way of cutting a literal text, tried one by one. *)
Ltac peel H p :=
  destruct p as [|? p];
  [ idtac
  | cbn [append] in H; first [discriminate H | injection H as <- H; peel H p] ].

Lemma scan_string_char_prefix (c : ascii) (p r : string) :
  escape_char c = p ++ r -> scan_string p = None.
Proof.
  intros H. each_char8 c;
    match type of H with
    | ?e = _ => let e' := eval vm_compute in e in change e with e' in H
    end;
    peel H p; reflexivity.
Qed.

Lemma scan_string_prefix (s : string) :
  forall p r, escape s = p ++ r -> scan_string p = None.
Proof.
  induction s as [|c s IH]; intros p r H.
  - destruct p; [reflexivity | discriminate H].
  - cbn [escape] in H.
    destruct (append_split _ _ _ _ H) as [(r0 & Hc & _)|(r0 & _ & -> & Hs)].
    + now apply (scan_string_char_prefix c p r0).
    + rewrite scan_string_escape_char, (IH r0 r Hs). reflexivity.
Qed.

Lemma literal_cut (fuel : nat) (p : string) :
  cut_short p "null" \/ cut_short p "true" \/ cut_short p "false" ->
  scan_once fuel p = None.
Proof.
  intros [H|[H|H]]; destruct H as (q & Hq & H); destruct fuel;
    try reflexivity; peel H p; try reflexivity;
    cbn in H; subst q; contradiction.
Qed.

Lemma digits_prefix (u : Decimal.uint) :
  forall p r, NilEmpty.string_of_uint u = p ++ r -> all_digits p = true.
Proof.
  induction u; intros p r H; cbn [NilEmpty.string_of_uint] in H;
    (destruct p as [|c p]; [reflexivity|]);
    cbn [append] in H; try discriminate H;
    injection H as <- H; cbn; now apply (IHu p r).
Qed.

Lemma scan_digits_all (p : string) :
  all_digits p = true -> snd (scan_digits p) = "".
Proof.
  induction p as [|c p IH]; [reflexivity|]. cbn [all_digits scan_digits].
  destruct (digit_of c); [|discriminate]. intros H. specialize (IH H).
  destruct (scan_digits p). exact IH.
Qed.

(** A number cut after its first digit still reads as a number, with no
    text left. *)
Lemma positive_cut (fuel : nat) (q : positive) (p r : string) :
  NilEmpty.string_of_uint (Pos.to_uint q) = p ++ r ->
  (match scan_once fuel p with
   | None => True
   | Some (_, rest) => rest = ""
   end)
  /\ (match scan_once fuel (String "-" p) with
      | None => True
      | Some (_, rest) => rest = ""
      end).
Proof.
  intros H.
  pose proof (to_uint_head q) as Hh.
  pose proof (DecimalPos.Unsigned.to_uint_nonnil q) as Hnil.
  destruct fuel as [|fuel]; [split; exact I|].
  destruct p as [|c p].
  { split; [exact I|]. cbn. exact I. }
  destruct (Pos.to_uint q) as [|u|u|u|u|u|u|u|u|u|u];
    try (exfalso; apply Hnil; reflexivity);
    try (exfalso; apply (Hh u); reflexivity);
    cbn [NilEmpty.string_of_uint append] in H; injection H as <- H;
    pose proof (scan_digits_all p (digits_prefix u p r H)) as Hd;
    (split; cbn -[N.of_uint];
     destruct (scan_digits p) as [u' rest]; cbn [snd] in Hd; subst rest;
     cbn -[N.of_uint]; reflexivity).
Qed.

Lemma int_cut (z : Z) : cut_unreadable (JInt z).
Proof.
  intros lvl p fuel (r & Hr & H). cbn [encode] in H.
  assert (Hgoal : match scan_once fuel p with
                  | None => True
                  | Some (_, rest) => rest = ""
                  end).
  { destruct z as [|q|q]; cbn [encode_int] in H.
    - destruct p as [|c p]; [now rewrite scan_once_empty|].
      cbn [append] in H. injection H as <- H. destruct p; [|discriminate H].
      cbn in H. now subst r.
    - apply (positive_cut fuel q p r H).
    - destruct p as [|c p]; [now rewrite scan_once_empty|].
      cbn [append] in H. injection H as <- H.
      apply (positive_cut fuel q p r H). }
  destruct (scan_once fuel p) as [[v rest]|]; [|exact I]. now split.
Qed.

Lemma str_cut (s : string) : cut_unreadable (JStr s).
Proof.
  intros lvl p fuel H. cbn [encode] in H. unfold encode_str in H.
  destruct (cut_short_cons _ _ _ H) as [->|(p' & -> & Hc)];
    [now rewrite scan_once_empty|].
  assert (Hs : scan_string p' = None).
  { destruct (cut_short_append _ _ _ Hc) as [(r & Hr)|(r & Hr & -> & Hq)].
    - now apply (scan_string_prefix s p' r).
    - exfalso. destruct (cut_short_cons _ _ _ Hq) as [->|(r' & _ & Hq')];
        [contradiction|].
      now apply cut_short_nonempty in Hq'. }
  destruct fuel; [exact I|]. cbn -[scan_string]. now rewrite Hs.
Qed.

Lemma array_tail_head (lvl : nat) (xs : list value) (rest : string) :
  exists c t, array_tail lvl xs rest = String c t /\ (c = ","%char \/ c = newline).
Proof.
  destruct xs.
  - eexists _, _. split; [reflexivity | now right].
  - rewrite array_tail_cons. eexists _, _. split; [reflexivity | now left].
Qed.

Lemma object_tail_head (lvl : nat) (ms : list (string * value)) (rest : string) :
  exists c t, object_tail lvl ms rest = String c t /\ (c = ","%char \/ c = newline).
Proof.
  destruct ms.
  - eexists _, _. split; [reflexivity | now right].
  - rewrite object_tail_cons. eexists _, _. split; [reflexivity | now left].
Qed.

Lemma tail_number_end (tail : string) :
  (exists c t, tail = String c t /\ (c = ","%char \/ c = newline)) ->
  forall r1 q, r1 <> "" -> tail = r1 ++ q -> number_end r1 = true.
Proof.
  intros (c & t & -> & Hc) r1 q Hr H.
  destruct r1 as [|d r1]; [contradiction|]. cbn [append] in H.
  injection H as <- _. destruct Hc as [->| ->]; reflexivity.
Qed.

(** Reading a value that is followed by [tail], from a cut text: nothing
    is read, or all the text is used up, or the value is read and the cut
    lies in [tail]. *)
Lemma value_then_cut (v : value) (lvl : nat) (tail r : string) (fuel : nat) :
  cut_unreadable v ->
  (forall r1 q, r1 <> "" -> tail = r1 ++ q -> number_end r1 = true) ->
  cut_short r (encode lvl v ++ tail) ->
  scan_once fuel r = None
  \/ (exists v', scan_once fuel r = Some (v', ""))
  \/ (exists r1, r1 <> "" /\ cut_short r1 tail
                 /\ scan_once fuel r = Some (v, r1)).
Proof.
  intros Hv Htail Hc.
  destruct (cut_short_append _ _ _ Hc) as [(r0 & Hr0)|(r1 & Hr1 & -> & Hc1)].
  - destruct r0 as [|c0 r0].
    + rewrite append_empty_r in Hr0. subst r.
      destruct (scan_once fuel (encode lvl v)) as [res|] eqn:E; [|now left].
      right; left.
      apply (scan_once_mono fuel (Nat.max fuel (size v))) in E; [|lia].
      pose proof (scan_once_encode v lvl "" (Nat.max fuel (size v))) as Hd.
      rewrite append_empty_r in Hd. rewrite Hd in E by (reflexivity || lia).
      injection E as <-. eauto.
    + specialize (Hv lvl r fuel).
      assert (Hcut : cut_short r (encode lvl v))
        by (exists (String c0 r0); split; [discriminate | exact Hr0]).
      specialize (Hv Hcut).
      destruct (scan_once fuel r) as [[v' rest]|]; [|now left].
      destruct Hv as [-> _]. right; left. eauto.
  - destruct (scan_once fuel (encode lvl v ++ r1)) as [res|] eqn:E; [|now left].
    right; right. exists r1. split; [exact Hr1 | split; [exact Hc1|]].
    apply (scan_once_mono fuel (Nat.max fuel (size v))) in E; [|lia].
    destruct Hc1 as (q & _ & Hq).
    rewrite (scan_once_encode v lvl r1 (Nat.max fuel (size v))) in E;
      [| lia | now apply (Htail r1 q)].
    now injection E as <-.
Qed.

Lemma items_cut (xs : list value) :
  Forall cut_unreadable xs ->
  forall x lvl r fuel,
    cut_unreadable x ->
    cut_short r (encode (S lvl) x ++ array_tail lvl xs "") ->
    scan_items fuel r = None.
Proof.
  induction 1 as [|y ys Hy Hys IH]; intros x lvl r fuel Hx Hc;
    (destruct fuel as [|fuel]; [reflexivity|]); rewrite scan_items_step;
    (destruct (value_then_cut x (S lvl) _ r fuel Hx
                 (tail_number_end _ (array_tail_head lvl _ "")) Hc)
       as [-> | [(v' & ->) | (r1 & Hr1 & Hc1 & ->)]];
     [reflexivity | reflexivity |]).
  - rewrite array_tail_nil in Hc1. now rewrite (cut_of_closing _ _ _ Hc1).
  - rewrite array_tail_cons in Hc1.
    destruct (cut_short_cons _ _ _ Hc1) as [->|(r2 & -> & Hc2)];
      [contradiction|].
    cbn [skip_ws is_ws PyStr.code N_of_ascii N_of_digits].
    cbn -[scan_items skip_ws].
    destruct (cut_after_indent _ _ _ Hc2) as [->|(r3 & Hr3 & -> & Hc3)].
    + now rewrite scan_items_empty.
    + destruct (cut_of_value_head _ _ _ _ Hr3 Hc3) as (c & r4 & -> & Hstart).
      rewrite (skip_ws_value_head c r4 Hstart).
      now rewrite (IH y lvl (String c r4) fuel Hy Hc3).
Qed.

Lemma scan_members_unfold (f : nat) (r1 : string) :
  scan_members (S f) (String dquote r1)
  = match scan_string r1 with
    | None => None
    | Some (key, s1) =>
        match skip_ws s1 with
        | EmptyString => None
        | String colon s2 =>
            if negb (Ascii.eqb colon ":") then None
            else
              match scan_once f (skip_ws s2) with
              | None => None
              | Some (v, s3) =>
                  match skip_ws s3 with
                  | EmptyString => None
                  | String c s4 =>
                      if Ascii.eqb c "}" then Some ([(key, v)], s4)
                      else if Ascii.eqb c "," then
                        match scan_members f (skip_ws s4) with
                        | Some (ms, rest) => Some ((key, v) :: ms, rest)
                        | None => None
                        end
                      else None
                  end
              end
        end
    end.
Proof. reflexivity. Qed.

Lemma member_text_unfold (lvl : nat) (k : string) (v : value) (tail : string) :
  member_text lvl (k, v) ++ tail
  = String dquote
      (escape k
       ++ String dquote (String ":" (String " " (encode (S lvl) v ++ tail)))).
Proof.
  unfold member_text, encode_str. cbn [fst snd append].
  rewrite !append_assoc. reflexivity.
Qed.

Lemma members_cut (ms : list (string * value)) :
  Forall (fun kv => cut_unreadable (snd kv)) ms ->
  forall kv lvl r fuel,
    cut_unreadable (snd kv) ->
    cut_short r (member_text lvl kv ++ object_tail lvl ms "") ->
    scan_members fuel r = None.
Proof.
  induction 1 as [|m ms' Hm Hms IH]; intros [k v] lvl r fuel Hv Hc;
    cbn [snd] in Hv;
    (destruct fuel as [|fuel]; [reflexivity|]);
    rewrite member_text_unfold in Hc;
    (destruct (cut_short_cons _ _ _ Hc) as [->|(r1 & -> & Hc1)];
     [reflexivity|]);
    rewrite scan_members_unfold;
    (destruct (cut_short_append _ _ _ Hc1) as [(r0 & Hr0)|(r2 & Hr2 & -> & Hc2)];
     [now rewrite (scan_string_prefix k r1 r0 Hr0)|]);
    (destruct (cut_short_cons _ _ _ Hc2) as [->|(r3 & -> & Hc3)];
     [contradiction|]);
    rewrite scan_string_escape;
    (destruct (cut_short_cons _ _ _ Hc3) as [->|(r4 & -> & Hc4)];
     [reflexivity|]);
    cbn [skip_ws is_ws PyStr.code N_of_ascii N_of_digits];
    cbn -[scan_once scan_members skip_ws];
    (destruct (cut_short_cons _ _ _ Hc4) as [->|(r5 & -> & Hc5)];
     [cbn [skip_ws]; now rewrite scan_once_empty|]);
    cbn [skip_ws is_ws PyStr.code N_of_ascii N_of_digits];
    cbn -[scan_once scan_members skip_ws];
    (destruct r5 as [|c5 r5]; [cbn [skip_ws]; now rewrite scan_once_empty|]);
    (destruct (cut_of_value_head _ _ _ (String c5 r5) ltac:(discriminate) Hc5)
       as (c & r6 & Heq & Hstart));
    rewrite Heq in *; rewrite (skip_ws_value_head c r6 Hstart);
    (destruct (value_then_cut v (S lvl) _ (String c r6) fuel Hv
                 (tail_number_end _ (object_tail_head lvl _ "")) Hc5)
       as [-> | [(v' & ->) | (r7 & Hr7 & Hc7 & ->)]];
     [reflexivity | reflexivity |]).
  - rewrite object_tail_nil in Hc7. now rewrite (cut_of_closing _ _ _ Hc7).
  - rewrite object_tail_cons in Hc7.
    destruct (cut_short_cons _ _ _ Hc7) as [->|(r8 & -> & Hc8)];
      [contradiction|].
    cbn [skip_ws is_ws PyStr.code N_of_ascii N_of_digits].
    cbn -[scan_members skip_ws].
    destruct (cut_after_indent _ _ _ Hc8) as [->|(r9 & Hr9 & -> & Hc9)].
    + now rewrite scan_members_empty.
    + rewrite (IH m lvl (skip_ws r9) fuel Hm); [reflexivity|].
      destruct m as [k' v']. rewrite member_text_unfold in Hc9 |- *.
      destruct (cut_short_cons _ _ _ Hc9) as [->|(r10 & -> & Hc10)];
        [contradiction|].
      exact Hc9.
Qed.

Lemma scan_once_array_unfold (f : nat) (p1 : string) :
  scan_once (S f) (String "[" p1)
  = match skip_ws p1 with
    | EmptyString => None
    | String c2 s2 =>
        if Ascii.eqb c2 "]" then Some (JArr [], s2)
        else
          match scan_items f (String c2 s2) with
          | Some (items, rest) => Some (JArr items, rest)
          | None => None
          end
    end.
Proof. reflexivity. Qed.

Lemma scan_once_object_unfold (f : nat) (p1 : string) :
  scan_once (S f) (String "{" p1)
  = match skip_ws p1 with
    | EmptyString => None
    | String c2 s2 =>
        if Ascii.eqb c2 "}" then Some (JObj [], s2)
        else
          match scan_members f (String c2 s2) with
          | Some (members, rest) => Some (JObj members, rest)
          | None => None
          end
    end.
Proof. reflexivity. Qed.

Theorem cut_encoding_unreadable (v : value) : cut_unreadable v.
Proof.
  induction v as [|b|z|s|items IH|ms IH] using value_induction.
  - intros lvl p fuel H. rewrite (literal_cut fuel p); [exact I | now left].
  - intros lvl p fuel H. rewrite (literal_cut fuel p); [exact I|].
    destruct b; cbn [encode] in H; tauto.
  - apply int_cut.
  - apply str_cut.
  - intros lvl p fuel H.
    assert (Hnone : scan_once fuel p = None); [|now rewrite Hnone].
    destruct fuel as [|fuel]; [reflexivity|].
    destruct IH as [|x xs Hx Hxs].
    + destruct H as (q & Hq & H). cbn in H. peel H p; try reflexivity.
      cbn in H. now subst q.
    + rewrite <- (append_empty_r (encode lvl (JArr (x :: xs)))) in H.
      rewrite encode_array_cons in H.
      destruct (cut_short_cons _ _ _ H) as [->|(p1 & -> & Hc1)];
        [reflexivity|].
      rewrite scan_once_array_unfold.
      destruct (cut_after_indent _ _ _ Hc1) as [->|(r & Hr & -> & Hc)];
        [reflexivity|].
      destruct (cut_of_value_head _ _ _ _ Hr Hc) as (c & r' & -> & Hstart).
      rewrite (skip_ws_value_head c r' Hstart).
      destruct (value_start_facts c Hstart) as (_ & -> & _).
      now rewrite (items_cut xs Hxs x lvl (String c r') fuel Hx Hc).
  - intros lvl p fuel H.
    assert (Hnone : scan_once fuel p = None); [|now rewrite Hnone].
    destruct fuel as [|fuel]; [reflexivity|].
    destruct IH as [|[k x] xs Hx Hxs].
    + destruct H as (q & Hq & H). cbn in H. peel H p; try reflexivity.
      cbn in H. now subst q.
    + rewrite <- (append_empty_r (encode lvl (JObj ((k, x) :: xs)))) in H.
      rewrite encode_object_cons in H.
      destruct (cut_short_cons _ _ _ H) as [->|(p1 & -> & Hc1)];
        [reflexivity|].
      rewrite scan_once_object_unfold.
      destruct (cut_after_indent _ _ _ Hc1) as [->|(r & Hr & -> & Hc)];
        [reflexivity|].
      pose proof Hc as Hc'. rewrite member_text_unfold in Hc'.
      destruct (cut_short_cons _ _ _ Hc') as [->|(r' & -> & _)];
        [contradiction|].
      cbn [skip_ws is_ws PyStr.code N_of_ascii N_of_digits].
      cbn -[scan_members].
      now rewrite (members_cut xs Hxs (k, x) lvl _ fuel Hx Hc).
Qed.

(** Nothing is read from a cut document that is an array or an object. *)
Theorem loads_cut (v : value) (p : string) :
  is_int v = false -> cut_short p (dumps v) -> loads p = None.
Proof.
  intros Hv Hc. unfold loads.
  assert (Hskip : skip_ws p = p).
  { destruct p as [|c p]; [reflexivity|].
    rewrite <- (append_empty_r (dumps v)) in Hc. unfold dumps in Hc.
    destruct (cut_of_value_head 0%nat v "" (String c p) ltac:(discriminate) Hc)
      as (c' & p' & Heq & Hstart).
    rewrite Heq. now apply skip_ws_value_head. }
  rewrite Hskip.
  pose proof (cut_encoding_unreadable v 0%nat p (S (String.length p)) Hc) as H.
  destruct (scan_once (S (String.length p)) p) as [[v' rest]|]; [|reflexivity].
  destruct H as [_ H]. rewrite Hv in H. discriminate H.
Qed.

End JsonCut.

Lemma substring_cut (s : string) :
  forall n, (n < String.length s)%nat -> cut_short (String.substring 0 n s) s.
Proof.
  induction s as [|c s IH]; intros n Hn; [cbn in Hn; lia|].
  destruct n as [|n].
  - exists (String c s). split; [discriminate | reflexivity].
  - cbn [String.length] in Hn. destruct (IH n ltac:(lia)) as (q & Hq & Heq).
    exists q. split; [exact Hq|]. cbn [String.substring append]. now rewrite <- Heq.
Qed.

(** X23: a write that stops early is never mistaken for a shorter store.
    If [save_feedbacks] fails after writing only part of the document,
    [load_feedbacks] on the file left behind does not return a list of
    records -- [json.load] raises --, so a session without records cannot
    get past the start-up lines until the file is repaired. *)
Theorem partial_write_unloadable (fbs : list feedback) (n : nat)
    (file : option string) (ci : option company_profile) :
  (n < String.length (document fbs))%nat ->
  load_feedbacks (fst (save_feedbacks (IoWriteError n) fbs file)) = None
  /\ startup {| feedbacks := []; company_info := ci;
                feedback_file := fst (save_feedbacks (IoWriteError n) fbs file) |}
     = None.
Proof.
  intros Hn.
  assert (H : load_feedbacks (fst (save_feedbacks (IoWriteError n) fbs file))
              = None).
  { cbn [save_feedbacks fst load_feedbacks].
    rewrite (JsonCut.loads_cut (Json.JArr (map feedback_to_json fbs)));
      [reflexivity | reflexivity | now apply substring_cut]. }
  split; [exact H|]. unfold startup. cbn [feedbacks feedback_file].
  now rewrite H.
Qed.

Lemma partial_write_unloadable_witness :
  load_feedbacks
    (feedback_file
       (fst (show_feedback_form (sample_input "The queue was slow")
               "2024-03-01 12:00:00" (IoWriteError 40) fresh_state)))
  = None.
Proof.
  apply (partial_write_unloadable
           [feedback_entry fresh_state (sample_input "The queue was slow")
              "2024-03-01 12:00:00"]
           40 None None).
  vm_compute. lia.
Defined.
